(** * Fusion runtime: subgraph execution plane

    A shallow embedding of [packages/fusion/runtime/src/utils.ts] (transport
    registry, lazy per-subgraph executor cache, hook pipeline, schema and
    subgraph-name comparison) and of the stitching merger's federation SDL
    rewrite, together with the properties the specification states about
    them.

    Conventions of the embedding:
    - a JavaScript exception or a rejected promise is the [Throw] case of
      [Res]; [mapMaybePromise v f] is the bind of that monad;
    - loggers print nothing that the program reads back, so a log call is
      modelled by what it can do to control flow only: it throws a
      [TypeError] when its receiver is [undefined];
    - user supplied callbacks (hooks, transports, executors) are functions of
      what they are given; the calls they make to the setters they receive
      are the list they return. *)

From Stdlib Require Import ZArith Ascii String List Bool Lia.
From stdpp Require Import base option strings list gmap.

Set Warnings "-register-all".
Local Open Scope string_scope.
Local Open Scope list_scope.

(** ** Errors and the result monad *)

Definition GraphQLError := string.

Inductive Error :=
| TypeError (msg : string)
| ReferenceError (msg : string)
| PlainError (msg : string)                                (* new Error(msg) *)
| AggregateError (errors : list GraphQLError) (msg : string)
| Thrown (what : string).                                  (* raised by user code *)

Inductive Res (A : Type) :=
| Ok (a : A)
| Throw (e : Error).
Arguments Ok {A} a.
Arguments Throw {A} e.

#[global] Instance Res_ret : MRet Res := fun A a => Ok a.
#[global] Instance Res_bind : MBind Res := fun A B f m =>
  match m with
  | Ok a => f a
  | Throw e => Throw e
  end.

(** [names needle msg]: the text [needle] occurs in [msg]. *)
Definition names (needle msg : string) : Prop :=
  exists pre post, msg = pre +:+ needle +:+ post.

(** The same, decided. *)
Fixpoint occurs (needle msg : string) : bool :=
  String.prefix needle msg ||
  match msg with
  | EmptyString => false
  | String _ rest => occurs needle rest
  end.

(** The double quote character, for messages that quote a word. *)
Definition dq : string := String (ascii_of_nat 34) EmptyString.

(** ** JavaScript values, as far as the registry inspects them *)

Inductive JSVal (F : Type) :=
| VUndefined
| VNull
| VBool (b : bool)
| VNum (n : Z)
| VStr (s : string)
| VFun (f : F)
| VObj (props : list (string * JSVal F)).
Arguments VUndefined {F}.
Arguments VNull {F}.
Arguments VBool {F} b.
Arguments VNum {F} n.
Arguments VStr {F} s.
Arguments VFun {F} f.
Arguments VObj {F} props.

Section JS.
Context {F : Type}.

(** ToBoolean *)
Definition truthy (v : JSVal F) : bool :=
  match v with
  | VUndefined | VNull => false
  | VBool b => b
  | VNum n => negb (n =? 0)%Z
  | VStr s => negb (String.eqb s "")
  | VFun _ | VObj _ => true
  end.

(** [typeof v === 'function'] *)
Definition is_function (v : JSVal F) : bool :=
  match v with VFun _ => true | _ => false end.

Fixpoint assoc (k : string) (props : list (string * JSVal F)) : option (JSVal F) :=
  match props with
  | [] => None
  | (k', v) :: rest => if String.eqb k k' then Some v else assoc k rest
  end.

(** [k in v] *)
Definition js_in (k : string) (v : JSVal F) : Res bool :=
  match v with
  | VObj props => Ok (bool_decide (is_Some (assoc k props)))
  | VFun _ => Ok false
  | _ => Throw (TypeError ("Cannot use 'in' operator to search for '" +:+ k +:+ "'"))
  end.

(** [v.k] *)
Definition js_get (v : JSVal F) (k : string) : Res (JSVal F) :=
  match v with
  | VUndefined | VNull =>
      Throw (TypeError ("Cannot read properties of undefined (reading '" +:+ k +:+ "')"))
  | VObj props => Ok (default VUndefined (assoc k props))
  | _ => Ok VUndefined
  end.
End JS.

(** ** Loggers *)

Record Logger := {
  logger_prefix : list string;
  logger_has_child : bool        (* whether the logger has a [child] method *)
}.

(** [logger.child(name)]; a child logger has a [child] method itself. *)
Definition child_logger (logger : Logger) (name : string) : Logger :=
  {| logger_prefix := logger_prefix logger ++ [name]; logger_has_child := true |}.

(** [logger.child?.(name)] for a logger that is there *)
Definition logger_child (logger : Logger) (name : string) : option Logger :=
  if logger_has_child logger then Some (child_logger logger name) else None.

(** [logger.m(...)] for a log method [m], the receiver written without [?.] *)
Definition log_call (logger : option Logger) (method : string) : Res unit :=
  match logger with
  | Some _ => Ok tt
  | None =>
      Throw (TypeError ("Cannot read properties of undefined (reading '" +:+ method +:+ "')"))
  end.

(** ** Transport executor factory registry *)

Module Registry.
Section Registry.
Context {F : Type}.

(** The [transports] option: a function of the kind, a mapping from kinds,
    or nothing. Prototype members of the mapping object are not modelled. *)
Inductive Transports :=
| TransportsFn (f : string -> Res (JSVal F))
| TransportsMap (m : gmap string (JSVal F))
| TransportsNone.

(** [import(name)]: the module namespace object, or [None] when the import
    is rejected. *)
Definition Importer := string -> option (list (string * JSVal F)).

Definition moduleName (kind : string) : string :=
  "@graphql-mesh/transport-" +:+ kind.

Definition notFoundMessage (kind : string) : string :=
  "No transport found for " +:+ kind +:+
  ". Please make sure you have installed " +:+ moduleName kind +:+
  " or defined the transport config in " +:+ dq +:+ "mesh.config.ts" +:+ dq.

Definition notExportedMessage (kind : string) : string :=
  moduleName kind +:+ " module does not export " +:+ dq +:+ "getSubgraphExecutor" +:+ dq.

Definition notAFunctionMessage (kind : string) : string :=
  moduleName kind +:+ " module's export " +:+ dq +:+ "getSubgraphExecutor" +:+ dq +:+
  " is not a function".

(** ['default' in transport ? transport.default.getSubgraphExecutor
                            : transport.getSubgraphExecutor] *)
Definition pickGetSubgraphExecutor (transport : JSVal F) : Res (JSVal F) :=
  has_default ← js_in "default" transport;
  if (has_default : bool)
  then dflt ← js_get transport "default"; js_get dflt "getSubgraphExecutor"
  else js_get transport "getSubgraphExecutor".

(** [typeof transports === 'function' ? await transports(kind)
                                      : await transports?.[kind]] *)
Definition inlineTransport (transports : Transports) (kind : string) : Res (JSVal F) :=
  match transports with
  | TransportsFn f => f kind
  | TransportsMap m => Ok (default VUndefined (m !! kind))
  | TransportsNone => Ok VUndefined
  end.

(** [getTransport], the function [createTransportExecutorFactoryGetter]
    returns. *)
Definition getTransport (transports : Transports) (logger : option Logger)
    (import : Importer) (kind : string) : Res (JSVal F) :=
  transport ← inlineTransport transports kind;
  if truthy transport then
    pickGetSubgraphExecutor transport
  else
    childLogger ← match logger with
                  | Some l => Ok (logger_child l kind)
                  | None => Throw (TypeError
                      "Cannot read properties of undefined (reading 'child')")
                  end;
    match import (moduleName kind) with
    | None =>
        _ ← log_call childLogger "error";
        Throw (PlainError (notFoundMessage kind))
    | Some module =>
        transportGetSubgraphExecutor ← pickGetSubgraphExecutor (VObj module);
        if negb (truthy transportGetSubgraphExecutor) then
          Throw (PlainError (notExportedMessage kind))
        else if negb (is_function transportGetSubgraphExecutor) then
          Throw (PlainError (notAFunctionMessage kind))
        else Ok transportGetSubgraphExecutor
    end.

(** The two "transport misshaped" errors. *)
Definition misshaped (kind : string) (e : Error) : Prop :=
  e = PlainError (notExportedMessage kind) \/ e = PlainError (notAFunctionMessage kind).

(** A module exposes a factory when the member the code consults is a
    callable. *)
Definition exposes_factory (module : JSVal F) : bool :=
  match pickGetSubgraphExecutor module with
  | Ok g => is_function g
  | Throw _ => false
  end.
End Registry.
Arguments Transports F : clear implicits.
Arguments Importer F : clear implicits.
End Registry.

(** ** Schemas, requests and results *)

(** What the runtime and the merger read of a [GraphQLSchema]. *)
Record GraphQLSchema := {
  schema_queryFields : option (list string);  (* fields of the query type, if any *)
  schema_link : bool;                         (* [extensions?.directives?.link] is set *)
  schema_source : string;                     (* the definitions it was built from *)
  schema_resolvers : list string              (* fields that carry a resolver *)
}.

Record TransportEntry := {
  entry_kind : string;
  entry_location : option string
}.

(** Execution requests are JavaScript objects shared by reference: a request
    is named by its address. *)
Definition ReqRef := positive.
Definition InfoRef := positive.

Record ExecutionRequest := {
  req_operationName : option string;
  req_contextRequest : option positive;   (* [context?.request], an HTTP request object *)
  req_info : option InfoRef
}.

Record ResolveInfo := {
  info_fieldName : option string;
  info_executionRequest : option ReqRef
}.

(** The objects the runtime reaches through a request, and the two weak maps
    of [@graphql-mesh/utils] keyed by request objects. *)
Record Store := {
  requests : gmap positive ExecutionRequest;
  infos : gmap positive ResolveInfo;
  requestIdByRequest : gmap positive string;
  loggerForExecutionRequest : gmap positive Logger
}.

Definition Json := JSVal Empty_set.

Record ExecutionResult := {
  result_data : Json;
  result_errors : option (list GraphQLError)
}.

(** What the pipeline does, in the order it does it. Hooks and executors are
    functions; the number they carry tells them apart in the trace. *)
Inductive Event :=
| EvPreHook (hook : nat) (request : ReqRef) (executor : nat)
| EvExecute (executor : nat) (request : ReqRef)
| EvDoneHook (hook : nat)
| EvOnNext (hook : nat) (item : ExecutionResult)
| EvOnEnd (hook : nat).

(** An asynchronous stream, as a consumer that drains it sees it: the items
    it yields, each with what ran before the item was handed over, and what
    ran when it ended, with the error it ended on if any. *)
Record AsyncStream := {
  stream_pulls : list (list Event * ExecutionResult);
  stream_close : list Event * option Error
}.

Inductive Result :=
| Single (r : ExecutionResult)
| Stream (s : AsyncStream).

(** The trace monad: the events so far and a value or an exception. *)
Definition M (A : Type) : Type := list Event * Res A.

#[global] Instance M_ret : MRet M := fun A a => ([], Ok a).
#[global] Instance M_bind : MBind M := fun A B f m =>
  match m with
  | (evs, Ok a) => let '(evs', r) := f a in (evs ++ evs', r)
  | (evs, Throw e) => (evs, Throw e)
  end.

Definition lift {A} (r : Res A) : M A := ([], r).

Record Executor := {
  exec_id : nat;
  exec_disposable : bool;             (* [isDisposable(executor)] *)
  exec_run : ReqRef -> Res Result
}.

(** A run of a user callback: the calls it makes to the setter(s) of its
    payload, in order, and then what it returns or throws. *)
Record HookRun (C R : Type) := {
  calls : list C;
  outcome : Res R
}.
Arguments calls {C R} _.
Arguments outcome {C R} _.

Record OnNextHook := {
  onNext_id : nat;
  onNext_run : ExecutionResult -> HookRun ExecutionResult unit
}.

Record OnEndHook := {
  onEnd_id : nat;
  onEnd_run : Res unit
}.

Record OnSubgraphExecuteDoneResult := {
  onNext : option OnNextHook;
  onEnd : option OnEndHook
}.

Record OnSubgraphExecuteDoneHook := {
  done_id : nat;
  done_run : Result -> HookRun Result (option OnSubgraphExecuteDoneResult)
}.

Inductive PreCall :=
| setExecutionRequest (newExecutionRequest : ReqRef)
| setExecutor (newExecutor : Executor).

Record OnSubgraphExecutePayload := {
  payload_subgraph : GraphQLSchema;
  payload_subgraphName : string;
  payload_transportEntry : option TransportEntry;
  payload_executionRequest : ReqRef;
  payload_executor : Executor;
  payload_requestId : option string;
  payload_logger : option Logger
}.

Record OnSubgraphExecuteHook := {
  pre_id : nat;
  pre_run : OnSubgraphExecutePayload -> HookRun PreCall (option OnSubgraphExecuteDoneHook)
}.

Record TransportContext := {
  ctx_logger : option Logger
}.

(** Code with local mutable variables [S]: the variables, the trace, and a
    value or an exception. The variables keep what was assigned before an
    exception. *)
Definition Proc (S A : Type) : Type := S -> S * list Event * Res A.

#[global] Instance Proc_ret {S} : MRet (Proc S) := fun A a st => (st, [], Ok a).
#[global] Instance Proc_bind {S} : MBind (Proc S) := fun A B f m st =>
  match m st with
  | (st1, evs, Ok a) => let '(st2, evs', r) := f a st1 in (st2, evs ++ evs', r)
  | (st1, evs, Throw e) => (st1, evs, Throw e)
  end.

Definition emitP {S} (e : Event) : Proc S unit := fun st => (st, [e], Ok tt).
Definition liftP {S A} (r : Res A) : Proc S A := fun st => (st, [], r).
Definition getP {S} : Proc S S := fun st => (st, [], Ok st).

(** Run a [Proc] from given variables and forget them at the end. *)
Definition runProc {S A} (p : Proc S A) (st : S) : M A :=
  let '(_, evs, r) := p st in (evs, r).

(** Run a [Proc] with variables of its own inside another and hand back
    what it left in them. *)
Definition withVars {S T A} (p : Proc T A) (init : T) : Proc S (T * A) := fun st =>
  let '(t, evs, r) := p init in
  (st, evs, match r with Ok a => Ok (t, a) | Throw e => Throw e end).

(** ** The hook pipeline *)

(** Modelled from the spec: [iterateAsync] of the package
    [@graphql-mesh/utils] of this repository, which [utils.ts] imports. It
    calls the callback on each element in order, one after the other, appends
    every result that is there to [results], and stops at the first
    exception. *)
Fixpoint iterateAsync {S A B} (iterable : list A) (callback : A -> Proc S (option B))
    (results : list B) : Proc S (list B) :=
  match iterable with
  | [] => mret results
  | x :: rest =>
      r ← callback x;
      iterateAsync rest callback
        (match r with Some b => results ++ [b] | None => results end)
  end.

(** The body shared by the setters handed to callbacks:
    [execReqLogger.debug(...); variable = newValue]. *)
Definition setter {S C} (execReqLogger : option Logger) (assign : C -> S -> S)
    (c : C) : Proc S unit := fun st =>
  match log_call execReqLogger "debug" with
  | Ok _ => (assign c st, [], Ok tt)
  | Throw e => (st, [], Throw e)
  end.

Fixpoint setter_calls {S C} (execReqLogger : option Logger) (assign : C -> S -> S)
    (cs : list C) : Proc S unit :=
  match cs with
  | [] => mret tt
  | c :: rest => _ ← setter execReqLogger assign c; setter_calls execReqLogger assign rest
  end.

(** A callback's run against the variables its setters assign: an exception
    out of a setter is the callback's exception. *)
Definition call_hook {S C R} (execReqLogger : option Logger) (assign : C -> S -> S)
    (run : HookRun C R) : Proc S R :=
  _ ← setter_calls execReqLogger assign (calls run);
  liftP (outcome run).

(** Modelled from the spec: [mapAsyncIterator], which [utils.ts] imports
    from [@graphql-tools/utils], as the pipeline calls it (no error mapper).
    Every item the source yields goes through [onNextFn] before it is handed
    over; when the stream ends, on success or on an error, [onEndFn] runs
    once. An exception out of [onNextFn] ends the stream there. *)
Fixpoint mapPulls (pulls : list (list Event * ExecutionResult))
    (close : list Event * option Error)
    (onNextFn : ExecutionResult -> M ExecutionResult) (onEndFn : M unit) : AsyncStream :=
  match pulls with
  | [] =>
      let '(evs, err) := close in
      let '(end_evs, end_res) := onEndFn in
      {| stream_pulls := [];
         stream_close := (evs ++ end_evs,
                          match err, end_res with
                          | Some e, _ => Some e
                          | None, Throw e => Some e
                          | None, Ok _ => None
                          end) |}
  | (evs, item) :: rest =>
      match onNextFn item with
      | (next_evs, Ok item') =>
          let s := mapPulls rest close onNextFn onEndFn in
          {| stream_pulls := (evs ++ next_evs, item') :: stream_pulls s;
             stream_close := stream_close s |}
      | (next_evs, Throw e) =>
          let '(end_evs, _) := onEndFn in
          {| stream_pulls := [];
             stream_close := (evs ++ next_evs ++ end_evs, Some e) |}
      end
  end.

Definition mapAsyncIterator (s : AsyncStream)
    (onNextFn : ExecutionResult -> M ExecutionResult) (onEndFn : M unit) : AsyncStream :=
  mapPulls (stream_pulls s) (stream_close s) onNextFn onEndFn.

Record WrapExecuteWithHooksOptions := {
  executor : Executor;
  onSubgraphExecuteHooks : list OnSubgraphExecuteHook;
  subgraphName : string;
  transportEntryMap : option (gmap string TransportEntry);
  getSubgraphSchema : string -> GraphQLSchema;
  transportContext : option TransportContext
}.

(** [executionRequest.info = executionRequest.info || {};
     executionRequest.info.executionRequest = executionRequest;] *)
Definition attachExecutionRequest (st : Store) (r : ReqRef) : Store :=
  match requests st !! r with
  | None => st
  | Some req =>
      match req_info req with
      | Some i =>
          {| requests := requests st;
             infos := alter (fun info => {| info_fieldName := info_fieldName info;
                                           info_executionRequest := Some r |}) i (infos st);
             requestIdByRequest := requestIdByRequest st;
             loggerForExecutionRequest := loggerForExecutionRequest st |}
      | None =>
          let i := fresh (dom (infos st)) in
          {| requests := <[r := {| req_operationName := req_operationName req;
                                   req_contextRequest := req_contextRequest req;
                                   req_info := Some i |}]> (requests st);
             infos := <[i := {| info_fieldName := None;
                                info_executionRequest := Some r |}]> (infos st);
             requestIdByRequest := requestIdByRequest st;
             loggerForExecutionRequest := loggerForExecutionRequest st |}
      end
  end.

(** [executionRequest.context?.request &&
     requestIdByRequest.get(executionRequest.context.request)] *)
Definition requestIdOf (st : Store) (r : ReqRef) : option string :=
  req ← requests st !! r;
  httpRequest ← req_contextRequest req;
  requestIdByRequest st !! httpRequest.

(** The request logger: [transportContext?.logger?.child?.(subgraphName)],
    then its child for the request id when there is one. *)
Definition execReqLoggerOf (opts : WrapExecuteWithHooksOptions)
    (requestId : option string) : option Logger :=
  match (transportContext opts ≫= ctx_logger) ≫=
        (fun l => logger_child l (subgraphName opts)) with
  | None => None
  | Some execReqLogger =>
      match requestId with
      | Some id => if String.eqb id "" then Some execReqLogger
                   else Some (child_logger execReqLogger id)
      | None => Some execReqLogger
      end
  end.

Definition setExecReqLogger (st : Store) (r : ReqRef) (l : option Logger) : Store :=
  match l with
  | None => st
  | Some execReqLogger =>
      {| requests := requests st;
         infos := infos st;
         requestIdByRequest := requestIdByRequest st;
         loggerForExecutionRequest := <[r := execReqLogger]> (loggerForExecutionRequest st) |}
  end.

(** [executor(executionRequest)] *)
Definition invoke {S} (e : Executor) (r : ReqRef) : Proc S Result :=
  _ ← emitP (EvExecute (exec_id e) r);
  liftP (exec_run e r).

(** The variables the pre-hooks' setters assign. *)
Definition PreVars : Type := ReqRef * Executor.

Definition assignPre (c : PreCall) (v : PreVars) : PreVars :=
  match c with
  | setExecutionRequest newExecutionRequest => (newExecutionRequest, v.2)
  | setExecutor newExecutor => (v.1, newExecutor)
  end.

(** The payload a pre-hook is called with when the variables are [v]. *)
Definition payloadAt (opts : WrapExecuteWithHooksOptions) (requestId : option string)
    (execReqLogger : option Logger) (v : PreVars) : OnSubgraphExecutePayload :=
  {| payload_subgraph := getSubgraphSchema opts (subgraphName opts);
     payload_subgraphName := subgraphName opts;
     payload_transportEntry := transportEntryMap opts ≫= (fun m => m !! subgraphName opts);
     payload_executionRequest := v.1;
     payload_executor := v.2;
     payload_requestId := requestId;
     payload_logger := execReqLogger |}.

(** The variables after a pre-hook whose setter calls all went through. *)
Definition afterCalls (cs : list PreCall) (v : PreVars) : PreVars :=
  fold_left (fun v c => assignPre c v) cs v.

(** One pre-hook call: the payload is built from the variables as they are
    at that moment. *)
Definition callPreHook (opts : WrapExecuteWithHooksOptions) (requestId : option string)
    (execReqLogger : option Logger) (hook : OnSubgraphExecuteHook)
    : Proc PreVars (option OnSubgraphExecuteDoneHook) :=
  v ← getP;
  _ ← emitP (EvPreHook (pre_id hook) v.1 (exec_id v.2));
  call_hook execReqLogger assignPre (pre_run hook (payloadAt opts requestId execReqLogger v)).

Definition callDoneHook (execReqLogger : option Logger) (hook : OnSubgraphExecuteDoneHook)
    : Proc Result (option OnSubgraphExecuteDoneResult) :=
  currentResult ← getP;
  _ ← emitP (EvDoneHook (done_id hook));
  call_hook execReqLogger (fun newResult _ => newResult) (done_run hook currentResult).

Definition callOnNext (execReqLogger : option Logger) (hook : OnNextHook)
    : Proc ExecutionResult (option unit) :=
  currentResult ← getP;
  _ ← emitP (EvOnNext (onNext_id hook) currentResult);
  _ ← call_hook execReqLogger (fun res _ => res) (onNext_run hook currentResult);
  mret None.

Definition callOnEnd (hook : OnEndHook) : Proc unit (option unit) :=
  _ ← emitP (EvOnEnd (onEnd_id hook));
  _ ← liftP (onEnd_run hook);
  mret None.

(** The mapper given to [mapAsyncIterator]: all [onNext] hooks on the item,
    then the item as they left it. *)
Definition onNextItem (execReqLogger : option Logger) (onNextHooks : list OnNextHook)
    (item : ExecutionResult) : M ExecutionResult :=
  runProc (_ ← iterateAsync onNextHooks (callOnNext execReqLogger) []; getP) item.

Definition onEndAll (onEndHooks : list OnEndHook) : M unit :=
  if (length onEndHooks =? 0)%nat then mret tt
  else runProc (_ ← iterateAsync onEndHooks callOnEnd []; mret tt) tt.

(** What the pipeline returns once the done hooks have run (the last
    callback of [executorWithHooks]). *)
Definition finishResult (execReqLogger : option Logger) (currentResult : Result)
    (executeDoneResults : list OnSubgraphExecuteDoneResult) : Result :=
  match currentResult with
  | Single _ => currentResult
  | Stream asyncIterator =>
      if (length executeDoneResults =? 0)%nat then currentResult
      else
        let onNextHooks := omap onNext executeDoneResults in
        let onEndHooks := omap onEnd executeDoneResults in
        if (length onNextHooks =? 0)%nat && (length onEndHooks =? 0)%nat
        then currentResult
        else Stream (mapAsyncIterator asyncIterator
                       (onNextItem execReqLogger onNextHooks) (onEndAll onEndHooks))
  end.

(** What follows the pre-hooks: the call of the executor and the done
    hooks. *)
Definition afterPreHooks (execReqLogger : option Logger)
    (onSubgraphExecuteDoneHooks : list OnSubgraphExecuteDoneHook) : Proc PreVars Result :=
  v ← getP;
  if (length onSubgraphExecuteDoneHooks =? 0)%nat then invoke v.2 v.1
  else
    currentResult ← invoke v.2 v.1;
    done ← withVars
             (iterateAsync onSubgraphExecuteDoneHooks (callDoneHook execReqLogger) [])
             currentResult;
    mret (finishResult execReqLogger done.1 done.2).

(** [wrapExecutorWithHooks(opts)], applied to a request. The store the call
    leaves comes with the trace and the result. *)
Definition executorWithHooks (opts : WrapExecuteWithHooksOptions) (st : Store)
    (executionRequest : ReqRef) : Store * M Result :=
  let st1 := attachExecutionRequest st executionRequest in
  let requestId := requestIdOf st1 executionRequest in
  let execReqLogger := execReqLoggerOf opts requestId in
  let st2 := setExecReqLogger st1 executionRequest execReqLogger in
  (st2,
   if (length (onSubgraphExecuteHooks opts) =? 0)%nat
   then runProc (invoke (executor opts) executionRequest) tt
   else
     runProc
       (onSubgraphExecuteDoneHooks ←
          iterateAsync (onSubgraphExecuteHooks opts)
            (callPreHook opts requestId execReqLogger) [];
        afterPreHooks execReqLogger onSubgraphExecuteDoneHooks)
       (executionRequest, executor opts)).

(** ** The lazy subgraph executor cache *)

Module Cache.

(** What a transport's [getSubgraphExecutor] is given. The getters
    [subgraph] and [transportEntry] are read when the factory runs. *)
Record TransportGetSubgraphExecutorOptions := {
  sctx_subgraphName : string;
  sctx_subgraph : GraphQLSchema;
  sctx_transportEntry : option TransportEntry;
  sctx_logger : option Logger
}.

(** A transport's [getSubgraphExecutor]: the executor it makes or the
    exception it raises, at once or through a promise. *)
Record Factory := {
  factory_run : TransportGetSubgraphExecutorOptions -> Res Executor;
  factory_async : bool
}.

(** The arguments of [getOnSubgraphExecute], but for the disposable stack,
    which is part of the state. *)
Record Options := {
  rt_onSubgraphExecuteHooks : list OnSubgraphExecuteHook;
  rt_transports : Registry.Transports Factory;
  rt_transportContext : option TransportContext;
  rt_transportEntryMap : option (gmap string TransportEntry);
  rt_getSubgraphSchema : string -> GraphQLSchema
}.

(** An [AsyncDisposableStack]: [use] on a disposed stack throws. *)
Record DisposableStack := {
  stack_disposed : bool;
  stack_resources : list nat
}.

Definition stack_use (stack : DisposableStack) (e : Executor) : Res DisposableStack :=
  if stack_disposed stack
  then Throw (ReferenceError "AsyncDisposableStack already disposed")
  else Ok {| stack_disposed := false;
             stack_resources := exec_id e :: stack_resources stack |}.

(** What [subgraphExecutorMap] holds for a subgraph: the lazy placeholder
    or the transport executor wrapped with the hooks. *)
Inductive CachedExecutor :=
| LazyExecutor
| HookedExecutor (inner : Executor).

Inductive CacheEvent :=
| EvGetTransport (kind : string)            (* [transportExecutorFactoryGetter(kind)] called *)
| EvFactory (subgraphName : string)         (* the transport's factory called *)
| EvCached (subgraphName : string) (executor : nat).

(** A call of [onSubgraphExecute] in flight: where it is suspended, or the
    result it has settled with. *)
Inductive Pending :=
| AwaitTransport (kind : string)
| AwaitExecutor (r : Res Executor)
| Settled (r : M Result).

Record Task := {
  task_subgraphName : string;
  task_request : ReqRef;
  task_state : Pending
}.

Record World := {
  store : Store;
  subgraphExecutorMap : gmap string CachedExecutor;
  transportExecutorStack : DisposableStack;
  log : list CacheEvent;
  tasks : list Task
}.

Definition init (st : Store) : World :=
  {| store := st;
     subgraphExecutorMap := ∅;
     transportExecutorStack := {| stack_disposed := false; stack_resources := [] |};
     log := [];
     tasks := [] |}.

Section Runtime.
Variable opts : Options.
Variable import : Registry.Importer Factory.

Definition transportEntryOf (subgraphName : string) : option TransportEntry :=
  rt_transportEntryMap opts ≫= (fun m => m !! subgraphName).

(** [transportContext.transportEntry?.kind || ''] *)
Definition kindOf (subgraphName : string) : string :=
  match transportEntryOf subgraphName with
  | Some entry => entry_kind entry
  | None => ""
  end.

Definition subgraphContext (subgraphName : string) : TransportGetSubgraphExecutorOptions :=
  {| sctx_subgraphName := subgraphName;
     sctx_subgraph := rt_getSubgraphSchema opts subgraphName;
     sctx_transportEntry := transportEntryOf subgraphName;
     sctx_logger := rt_transportContext opts ≫= ctx_logger |}.

Definition transportExecutorFactoryGetter (kind : string) : Res (JSVal Factory) :=
  Registry.getTransport (rt_transports opts) (rt_transportContext opts ≫= ctx_logger)
    import kind.

(** [executor(transportContext)] on what the getter resolved to. *)
Definition callFactory (subgraphName : string) (g : JSVal Factory)
    : option Factory * Res Executor :=
  match g with
  | VFun factory => (Some factory, factory_run factory (subgraphContext subgraphName))
  | _ => (None, Throw (TypeError "executor is not a function"))
  end.

(** [if (isDisposable(executor)) transportExecutorStack.use(executor);
     return executor] *)
Definition registerDisposable (stack : DisposableStack) (e : Executor)
    : Res DisposableStack :=
  if exec_disposable e then stack_use stack e else Ok stack.

(** [getTransportExecutor], run without interruption. *)
Definition getTransportExecutor (subgraphName : string) (stack : DisposableStack)
    : Res (DisposableStack * Executor) :=
  g ← transportExecutorFactoryGetter (kindOf subgraphName);
  e ← (callFactory subgraphName g).2;
  stack' ← registerDisposable stack e;
  mret (stack', e).

Definition wrapOptions (subgraphName : string) (executor_ : Executor)
    : WrapExecuteWithHooksOptions :=
  {| executor := executor_;
     onSubgraphExecuteHooks := rt_onSubgraphExecuteHooks opts;
     subgraphName := subgraphName;
     transportEntryMap := rt_transportEntryMap opts;
     getSubgraphSchema := rt_getSubgraphSchema opts;
     transportContext := rt_transportContext opts |}.

Definition addTask (t : Task) (w : World) : World :=
  {| store := store w;
     subgraphExecutorMap := subgraphExecutorMap w;
     transportExecutorStack := transportExecutorStack w;
     log := log w;
     tasks := tasks w ++ [t] |}.

Definition setTask (i : nat) (t : Task) (w : World) : World :=
  {| store := store w;
     subgraphExecutorMap := subgraphExecutorMap w;
     transportExecutorStack := transportExecutorStack w;
     log := log w;
     tasks := <[i := t]> (tasks w) |}.

Definition addLog (e : CacheEvent) (w : World) : World :=
  {| store := store w;
     subgraphExecutorMap := subgraphExecutorMap w;
     transportExecutorStack := transportExecutorStack w;
     log := log w ++ [e];
     tasks := tasks w |}.

(** The hooked executor of a subgraph, called on a request. Its own
    suspension points are not interleaved with other calls. *)
Definition callHooked (subgraphName : string) (inner : Executor) (req : ReqRef)
    (w : World) : World * M Result :=
  let '(st, r) := executorWithHooks (wrapOptions subgraphName inner) (store w) req in
  ({| store := st;
      subgraphExecutorMap := subgraphExecutorMap w;
      transportExecutorStack := transportExecutorStack w;
      log := log w;
      tasks := tasks w |}, r).

(** The last callbacks of [lazyExecutor]: once the factory has settled
    with [r], register the executor if it is disposable, wrap it, cache
    it and forward the request. *)
Definition installExecutor (subgraphName : string) (req : ReqRef) (r : Res Executor)
    (w : World) : World * M Result :=
  match r with
  | Throw e => (w, lift (Throw e))
  | Ok executor_ =>
      match registerDisposable (transportExecutorStack w) executor_ with
      | Throw e => (w, lift (Throw e))
      | Ok stack' =>
          callHooked subgraphName executor_ req
            {| store := store w;
               subgraphExecutorMap :=
                 <[subgraphName := HookedExecutor executor_]> (subgraphExecutorMap w);
               transportExecutorStack := stack';
               log := log w ++ [EvCached subgraphName (exec_id executor_)];
               tasks := tasks w |}
      end
  end.

(** [lazyExecutor(subgraphExecReq)] up to its first suspension: the
    factory getter is called and the call waits for it. *)
Definition lazyExecutor (subgraphName : string) (req : ReqRef) (w : World) : World :=
  let kind := kindOf subgraphName in
  addTask {| task_subgraphName := subgraphName; task_request := req;
             task_state := AwaitTransport kind |}
          (addLog (EvGetTransport kind) w).

(** [onSubgraphExecute(subgraphName, executionRequest)] up to its first
    suspension. *)
Definition onSubgraphExecute (subgraphName : string) (req : ReqRef) (w : World) : World :=
  match subgraphExecutorMap w !! subgraphName with
  | Some (HookedExecutor inner) =>
      let '(w', r) := callHooked subgraphName inner req w in
      addTask {| task_subgraphName := subgraphName; task_request := req;
                 task_state := Settled r |} w'
  | Some LazyExecutor => lazyExecutor subgraphName req w
  | None =>
      lazyExecutor subgraphName req
        {| store := store w;
           subgraphExecutorMap := <[subgraphName := LazyExecutor]> (subgraphExecutorMap w);
           transportExecutorStack := transportExecutorStack w;
           log := log w;
           tasks := tasks w |}
  end.

Definition settle (i : nat) (t : Task) (r : M Result) (w : World) : World :=
  setTask i {| task_subgraphName := task_subgraphName t;
               task_request := task_request t;
               task_state := Settled r |} w.

(** The event loop resumes the suspended call number [i]. *)
Definition resume (i : nat) (w : World) : World :=
  match tasks w !! i with
  | None => w
  | Some t =>
      match task_state t with
      | Settled _ => w
      | AwaitTransport kind =>
          match transportExecutorFactoryGetter kind with
          | Throw e => settle i t (lift (Throw e)) w
          | Ok g =>
              match callFactory (task_subgraphName t) g with
              | (None, r) =>
                  let '(w', res) :=
                    installExecutor (task_subgraphName t) (task_request t) r w in
                  settle i t res w'
              | (Some factory, r) =>
                  let w1 := addLog (EvFactory (task_subgraphName t)) w in
                  if factory_async factory then
                    setTask i {| task_subgraphName := task_subgraphName t;
                                 task_request := task_request t;
                                 task_state := AwaitExecutor r |} w1
                  else
                    let '(w', res) :=
                      installExecutor (task_subgraphName t) (task_request t) r w1 in
                    settle i t res w'
              end
          end
      | AwaitExecutor r =>
          let '(w', res) := installExecutor (task_subgraphName t) (task_request t) r w in
          settle i t res w'
      end
  end.

Inductive Action :=
| Call (subgraphName : string) (req : ReqRef)
| Resume (i : nat).

Definition step (w : World) (a : Action) : World :=
  match a with
  | Call subgraphName req => onSubgraphExecute subgraphName req w
  | Resume i => resume i w
  end.

Definition run (schedule : list Action) (w : World) : World :=
  fold_left step schedule w.

Definition is_settled (t : Task) : bool :=
  match task_state t with Settled _ => true | _ => false end.

Definition awaits_transport (t : Task) : bool :=
  match task_state t with AwaitTransport _ => true | _ => false end.

Definition all_settled (w : World) : bool := forallb is_settled (tasks w).

Definition is_factory_call (subgraphName : string) (e : CacheEvent) : bool :=
  match e with
  | EvFactory n => String.eqb n subgraphName
  | _ => false
  end.

(** How many times the transport's factory was called for a subgraph. *)
Definition factoryCalls (subgraphName : string) (w : World) : nat :=
  length (filter (fun e => is_factory_call subgraphName e = true) (log w)).

Definition is_getter_call (e : CacheEvent) : bool :=
  match e with EvGetTransport _ => true | _ => false end.

Definition getterCalls (w : World) : nat :=
  length (filter (fun e => is_getter_call e = true) (log w)).

(** The result a call has settled with. *)
Definition resultOf (i : nat) (w : World) : option (M Result) :=
  match tasks w !! i with
  | Some t => match task_state t with Settled r => Some r | _ => None end
  | None => None
  end.

(** How many calls wait for the factory getter. *)
Definition pendingTransport (w : World) : nat :=
  length (filter (fun t => awaits_transport t = true) (tasks w)).

(** All calls in flight are calls for the subgraph [s]. *)
Definition onlyCallsTo (s : string) (w : World) : Prop :=
  Forall (fun t => task_subgraphName t = s
                   /\ forall kind, task_state t = AwaitTransport kind -> kind = kindOf s)
         (tasks w).

(** [n] calls for [s] were made; each of them has had the factory called
    for it or still waits for the factory getter. *)
Definition firstCallsInv (s : string) (n : nat) (w : World) : Prop :=
  onlyCallsTo s w
  /\ length (tasks w) = n
  /\ factoryCalls s w + pendingTransport w = n.

(** The cache does not hold a hooked executor for [s] yet. *)
Definition notInitialised (s : string) (w : World) : Prop :=
  subgraphExecutorMap w !! s = None \/ subgraphExecutorMap w !! s = Some LazyExecutor.
End Runtime.

(** Every disposable executor in the cache is on the disposable stack. *)
Definition disposablesRegistered (w : World) : Prop :=
  forall s e,
    subgraphExecutorMap w !! s = Some (HookedExecutor e) ->
    exec_disposable e = true ->
    exec_id e ∈ stack_resources (transportExecutorStack w).

(** What the next call needs to know of the world a failed call leaves. *)
Definition failedWith (s : string) (i : nat) (e : Error) (w1 w' : World) : Prop :=
  resultOf i w' = Some ([], Throw e)
  /\ subgraphExecutorMap w' = subgraphExecutorMap w1
  /\ transportExecutorStack w' = transportExecutorStack w1
  /\ length (tasks w') = length (tasks w1)
  /\ getterCalls w' = getterCalls w1.

End Cache.

(** ** Comparing schemas and subgraph names *)

Section CompareSchemas.
Context {DocumentNode : Type}.
(** [print] of graphql and [printSchemaWithDirectives] of
    [@graphql-tools/utils]. *)
Variable print : DocumentNode -> string.
Variable printSchemaWithDirectives : GraphQLSchema -> string.

Inductive SchemaInput :=
| InString (sdl : string)
| InDocument (doc : DocumentNode)
| InSchema (schema : GraphQLSchema).

(** [aStr] and [bStr] of [compareSchemas] *)
Definition schemaText (a : SchemaInput) : string :=
  match a with
  | InString sdl => sdl
  | InDocument doc => print doc
  | InSchema schema => printSchemaWithDirectives schema
  end.

Definition compareSchemas (a b : SchemaInput) : bool :=
  String.eqb (schemaText a) (schemaText b).

(** The canonical printed form the specification compares: an SDL string is
    parsed and printed, a document and a schema are printed. *)
Definition canonicalSDL (parse : string -> DocumentNode) (a : SchemaInput) : string :=
  match a with
  | InString sdl => print (parse sdl)
  | InDocument doc => print doc
  | InSchema schema => printSchemaWithDirectives schema
  end.

(** An input that is a string is in printed form when printing its parse
    gives it back. *)
Definition inPrintedForm (parse : string -> DocumentNode) (a : SchemaInput) : Prop :=
  match a with
  | InString sdl => print (parse sdl) = sdl
  | _ => True
  end.
End CompareSchemas.
Arguments SchemaInput DocumentNode : clear implicits.

Definition compareSubgraphNames (constantCase : string -> string) (name1 name2 : string) : bool :=
  String.eqb (constantCase name1) (constantCase name2).

(** Modelled from the spec: [constantCase], which [utils.ts] imports from
    the change-case package: the words of the name in upper case, joined by
    [_], where a word ends at a case boundary and at every run of characters
    that are neither letters nor digits, so that MyApi, my_api and MY-API
    collide. The steps are those of the package's [noCase] (version 4, which
    package.json asks for) on ASCII text; a zero byte marks a word boundary,
    as in the package. *)
Module ChangeCase.
Definition code (c : ascii) : nat := nat_of_ascii c.
Definition is_lower (c : ascii) : bool := (97 <=? code c)%nat && (code c <=? 122)%nat.
Definition is_upper (c : ascii) : bool := (65 <=? code c)%nat && (code c <=? 90)%nat.
Definition is_digit (c : ascii) : bool := (48 <=? code c)%nat && (code c <=? 57)%nat.
Definition is_alnum (c : ascii) : bool := is_lower c || is_upper c || is_digit c.
Definition NUL : ascii := ascii_of_nat 0.
Definition upperCase (c : ascii) : ascii :=
  if is_lower c then ascii_of_nat (code c - 32) else c.

(** [/([a-z0-9])([A-Z])/g], replaced by ["$1\0$2"] *)
Fixpoint splitLowerUpper (cs : list ascii) : list ascii :=
  match cs with
  | a :: ((b :: rest') as rest) =>
      if (is_lower a || is_digit a) && is_upper b
      then a :: NUL :: b :: splitLowerUpper rest'
      else a :: splitLowerUpper rest
  | _ => cs
  end.

(** [/([A-Z])([A-Z][a-z])/g], replaced by ["$1\0$2"] *)
Fixpoint splitUpperUpperLower (cs : list ascii) : list ascii :=
  match cs with
  | a :: ((b :: c :: rest'') as rest) =>
      if is_upper a && is_upper b && is_lower c
      then a :: NUL :: b :: c :: splitUpperUpperLower rest''
      else a :: splitUpperUpperLower rest
  | _ => cs
  end.

(** [/[^A-Z0-9]+/gi], replaced by ["\0"] *)
Fixpoint strip (in_run : bool) (cs : list ascii) : list ascii :=
  match cs with
  | [] => []
  | c :: rest =>
      if is_alnum c then c :: strip false rest
      else if in_run then strip true rest
      else NUL :: strip true rest
  end.

Definition is_NUL (c : ascii) : bool := (code c =? 0)%nat.

Fixpoint dropNUL (cs : list ascii) : list ascii :=
  match cs with
  | c :: rest => if is_NUL c then dropNUL rest else cs
  | [] => []
  end.

(** The delimiter trimmed from both ends. *)
Definition trim (cs : list ascii) : list ascii :=
  rev (dropNUL (rev (dropNUL cs))).

(** [split("\0").map(upperCase).join("_")] *)
Definition joinUpper (cs : list ascii) : list ascii :=
  map (fun c => if is_NUL c then ascii_of_nat 95 else upperCase c) cs.

Definition constantCase (input : string) : string :=
  string_of_list_ascii
    (joinUpper (trim (strip false
       (splitUpperUpperLower (splitLowerUpper (list_ascii_of_string input)))))).
End ChangeCase.

(** A small printer that normalises white space, to have a printer at hand
    where one has to be named: documents are sequences of words. *)
Module WordPrinter.
Definition is_space (c : ascii) : bool :=
  let n := nat_of_ascii c in (n =? 32)%nat || (n =? 10)%nat || (n =? 9)%nat || (n =? 13)%nat.

Fixpoint words (cur : string) (cs : list ascii) : list string :=
  match cs with
  | [] => if String.eqb cur "" then [] else [cur]
  | c :: rest =>
      if is_space c
      then (if String.eqb cur "" then words "" rest else cur :: words "" rest)
      else words (cur +:+ String c EmptyString) rest
  end.

Definition parse (sdl : string) : list string := words "" (list_ascii_of_string sdl).

Fixpoint print (doc : list string) : string :=
  match doc with
  | [] => ""
  | [w] => w
  | w :: rest => w +:+ " " +:+ print rest
  end.

Definition printSchemaWithDirectives (schema : GraphQLSchema) : string :=
  print (parse (schema_source schema)).
End WordPrinter.

(** ** The stitching merger: federation SDL to stitching SDL *)

Module Merger.

Inductive MergerEvent :=
| LogDebug (scope : list string) (msg : string)
| Executed (subgraph : string) (document : string)      (* the subgraph's executor ran *)
| Translated (federationSdl : string)                   (* [federationToStitchingSDL] ran *)
| Built (stitchingSdl : string).                        (* [buildSchema] ran *)

(** Merger code: what it did, and a value or an exception. *)
Definition MM (A : Type) : Type := list MergerEvent * Res A.

#[global] Instance MM_ret : MRet MM := fun A a => ([], Ok a).
#[global] Instance MM_bind : MBind MM := fun A B f m =>
  match m with
  | (evs, Ok a) => let '(evs', r) := f a in (evs ++ evs', r)
  | (evs, Throw e) => (evs, Throw e)
  end.

Definition tell (e : MergerEvent) : MM unit := ([e], Ok tt).
Definition liftMM {A} (r : Res A) : MM A := ([], r).

(** A source handler's executor, given the document of the request. *)
Definition SourceExecutor := string -> Res Result.

Record RawSource := {
  source_name : string;
  source_schema : GraphQLSchema;
  source_executor : SourceExecutor;
  source_batch : option bool;
  source_merge : option string
}.

Definition APOLLO_GET_SERVICE_DEFINITION_QUERY : string :=
  "
query __ApolloGetServiceDefinition__ {
  _service {
    sdl
  }
}
".

Definition isFederatedSchema (schema : GraphQLSchema) : bool :=
  match schema_queryFields schema with
  | Some queryFields => bool_decide ("_service" ∈ queryFields)
  | None => false
  end.

Definition fetchFailedMessage (name : string) : string :=
  "Failed on fetching Federated SDL for " +:+ name.

Section Merger.
(** Functions of graphql and graphql-tools. *)
Variable printSchemaWithDirectives : GraphQLSchema -> string.
Variable federationToStitchingSDL : string -> string.
Variable buildSchema : string -> GraphQLSchema.
Variable addResolversToSchema : GraphQLSchema -> list string -> GraphQLSchema.
Variable stitchingDirectivesTransformer : RawSource -> option string.
Variable stitchSchemas : list RawSource -> Res GraphQLSchema.
(** [this.store.proxy(key, ...).getWithSet(setter)]: the store proxy of
    [@graphql-mesh/store], a parameter here. *)
Variable getWithSet : string -> MM GraphQLSchema -> MM GraphQLSchema.
(** [this.logger] *)
Variable logger : Logger.

(** [sdlQueryResult.data._service.sdl] *)
Definition sdlOf (r : ExecutionResult) : Res string :=
  service ← js_get (result_data r) "_service";
  sdl ← js_get service "sdl";
  match sdl with
  | VStr text => Ok text
  | _ => Throw (TypeError "sdl is not a string")
  end.

(** The function handed to [getWithSet]. *)
Definition fetchStitchingSchema (name : string) (oldSchema : GraphQLSchema)
    (executor : SourceExecutor) : MM GraphQLSchema :=
  _ ← tell (LogDebug (logger_prefix logger)
              ("Fetching Apollo Federated Service SDL for " +:+ name));
  federationSdl ←
    (if schema_link oldSchema then mret (printSchemaWithDirectives oldSchema)
     else
       _ ← tell (Executed name APOLLO_GET_SERVICE_DEFINITION_QUERY);
       sdlQueryResult ← liftMM (executor APOLLO_GET_SERVICE_DEFINITION_QUERY);
       match sdlQueryResult with
       | Stream _ =>
           liftMM (Throw (TypeError
             "Cannot read properties of undefined (reading '_service')"))
       | Single r =>
           match result_errors r with
           | Some (e :: es) =>
               liftMM (Throw (AggregateError (e :: es) (fetchFailedMessage name)))
           | _ => liftMM (sdlOf r)
           end
       end);
  _ ← tell (LogDebug (logger_prefix logger) ("Generating Stitching SDL for " +:+ name));
  _ ← tell (Translated federationSdl);
  let stitchingSdl := federationToStitchingSDL federationSdl in
  _ ← tell (Built stitchingSdl);
  mret (buildSchema stitchingSdl).

Definition replaceFederationSDLWithStitchingSDL (name : string)
    (oldSchema : GraphQLSchema) (executor : SourceExecutor) : MM GraphQLSchema :=
  let rawSourceLogger := child_logger logger name in
  _ ← tell (LogDebug (logger_prefix rawSourceLogger)
              "Extracting existing resolvers if available");
  let resolvers := schema_resolvers oldSchema in
  newSchema ← getWithSet (name +:+ "_stitching")
                (fetchStitchingSchema name oldSchema executor);
  _ ← tell (LogDebug (logger_prefix rawSourceLogger)
              "Adding existing resolvers back to the schema");
  let newSchema' := addResolversToSchema newSchema resolvers in
  mret {| schema_queryFields := schema_queryFields newSchema';
          schema_link := schema_link oldSchema;
          schema_source := schema_source newSchema';
          schema_resolvers := schema_resolvers newSchema' |}.

(** The callback [getUnifiedSchema] maps over the raw sources. *)
Definition prepareSource (rawSource : RawSource) : MM RawSource :=
  let batch := match source_batch rawSource with
               | None => Some true
               | b => b
               end in
  schema ←
    (if isFederatedSchema (source_schema rawSource) then
       _ ← tell (LogDebug (logger_prefix logger)
                   (source_name rawSource +:+ " has federated schema."));
       replaceFederationSDLWithStitchingSDL (source_name rawSource)
         (source_schema rawSource) (source_executor rawSource)
     else mret (source_schema rawSource));
  let prepared := {| source_name := source_name rawSource;
                     source_schema := schema;
                     source_executor := source_executor rawSource;
                     source_batch := batch;
                     source_merge := source_merge rawSource |} in
  mret {| source_name := source_name prepared;
          source_schema := source_schema prepared;
          source_executor := source_executor prepared;
          source_batch := source_batch prepared;
          source_merge := stitchingDirectivesTransformer prepared |}.

(** [Promise.all(rawSources.map(...))], the sources taken one after the
    other: the first failure is the failure of the whole. *)
Fixpoint prepareSources (rawSources : list RawSource) : MM (list RawSource) :=
  match rawSources with
  | [] => mret []
  | rawSource :: rest =>
      prepared ← prepareSource rawSource;
      others ← prepareSources rest;
      mret (prepared :: others)
  end.

(** [getUnifiedSchema], up to the stitched schema; the source map it
    attaches to the schema's extensions is left out. *)
Definition getUnifiedSchema (rawSources : list RawSource) : MM GraphQLSchema :=
  _ ← tell (LogDebug (logger_prefix logger) "Stitching directives are being generated");
  _ ← tell (LogDebug (logger_prefix logger)
              "Checking if any of sources has federation metadata");
  subschemas ← prepareSources rawSources;
  _ ← tell (LogDebug (logger_prefix logger) "Stitching the source schemas");
  unifiedSchema ← liftMM (stitchSchemas subschemas);
  _ ← tell (LogDebug (logger_prefix logger)
              "sourceMap is being generated and attached to the unified schema");
  mret unifiedSchema.

End Merger.
End Merger.

(** *** What the stream observers do to an item, when all goes well *)

(** The item after one [onNext] hook: the argument of its last [setResult]
    call, or the item as it was. *)
Definition rewriteBy (hook : OnNextHook) (item : ExecutionResult) : ExecutionResult :=
  fold_left (fun _ res => res) (calls (onNext_run hook item)) item.

(** The item after all [onNext] hooks, first registered first. *)
Definition rewritten (hooks : list OnNextHook) (item : ExecutionResult) : ExecutionResult :=
  fold_left (fun x hook => rewriteBy hook x) hooks item.

(** The calls of the [onNext] hooks on an item: each hook is called once,
    in registration order, with the item as the hooks before it left it. *)
Fixpoint onNextTrace (hooks : list OnNextHook) (item : ExecutionResult) : list Event :=
  match hooks with
  | [] => []
  | hook :: rest => EvOnNext (onNext_id hook) item :: onNextTrace rest (rewriteBy hook item)
  end.

(** A stream that comes straight from an executor. *)
Definition plainStream (items : list ExecutionResult) : AsyncStream :=
  {| stream_pulls := map (fun x => ([], x)) items; stream_close := ([], None) |}.



(** ** Scenarios *)

Module Scenario.
Definition rootLogger : Logger := {| logger_prefix := []; logger_has_child := true |}.

(** A logger object without a [child] method. *)
Definition flatLogger : Logger := {| logger_prefix := []; logger_has_child := false |}.

(** No module can be imported. *)
Definition nothingInstalled : Registry.Importer Cache.Factory := fun _ => None.

(** An inline module that has a name and nothing else. *)
Definition emptyModule : JSVal Cache.Factory := VObj [("name", VStr "k")].

(** An inline module whose [getSubgraphExecutor] is a number. *)
Definition numberModule : JSVal Cache.Factory := VObj [("getSubgraphExecutor", VNum 42)].

(** A discovered module whose default member has no factory. *)
Definition hollowDefault : Registry.Importer Cache.Factory :=
  fun _ => Some [("default", VObj [])].

Definition aSchema : GraphQLSchema :=
  {| schema_queryFields := Some ["hello"]; schema_link := false;
     schema_source := "type Query { hello: String }"; schema_resolvers := [] |}.

(** One request object, at address 1, without resolver info. *)
Definition oneRequest : Store :=
  {| requests := {[ 1%positive := {| req_operationName := Some "q";
                                     req_contextRequest := None;
                                     req_info := None |} ]};
     infos := ∅;
     requestIdByRequest := ∅;
     loggerForExecutionRequest := ∅ |}.

Definition okResult (ok : bool) : ExecutionResult :=
  {| result_data := VObj [("ok", VBool ok)]; result_errors := None |}.

Definition upstream : Executor :=
  {| exec_id := 0; exec_disposable := false;
     exec_run := fun _ => Ok (Single (okResult false)) |}.

Definition fake : Executor :=
  {| exec_id := 9; exec_disposable := false;
     exec_run := fun _ => Ok (Single (okResult true)) |}.

(** A pre-hook that calls [setExecutor(fake)] and returns nothing. *)
Definition swapHook : OnSubgraphExecuteHook :=
  {| pre_id := 1;
     pre_run := fun _ => {| calls := [setExecutor fake]; outcome := Ok None |} |}.

Definition withLogger : option TransportContext :=
  Some {| ctx_logger := Some rootLogger |}.

Definition swapOptions (ctx : option TransportContext) : WrapExecuteWithHooksOptions :=
  {| executor := upstream;
     onSubgraphExecuteHooks := [swapHook];
     subgraphName := "a";
     transportEntryMap := None;
     getSubgraphSchema := fun _ => aSchema;
     transportContext := ctx |}.

Definition item (n : Z) : ExecutionResult :=
  {| result_data := VObj [("n", VNum n)]; result_errors := None |}.

(** A subscription that yields three items and ends. *)
Definition countTo3 : AsyncStream :=
  {| stream_pulls := [([], item 1); ([], item 2); ([], item 3)];
     stream_close := ([], None) |}.

(** [p => p.setResult({data: {n: p.result.data.n * 10}})] *)
Definition times10 : OnNextHook :=
  {| onNext_id := 7;
     onNext_run := fun r =>
       {| calls := [match result_data r with
                    | VObj [(_, VNum n)] => item (n * 10)
                    | _ => r
                    end];
          outcome := Ok tt |} |}.

Definition spy : OnEndHook := {| onEnd_id := 8; onEnd_run := Ok tt |}.

Definition observing : OnSubgraphExecuteDoneResult :=
  {| onNext := Some times10; onEnd := Some spy |}.

(** Scenario 3 of the specification, as a whole: the executor returns the
    subscription, a pre-hook returns a done hook, which returns the two
    observers. *)
Definition subscribing : Executor :=
  {| exec_id := 2; exec_disposable := false; exec_run := fun _ => Ok (Stream countTo3) |}.

Definition observingHook : OnSubgraphExecuteHook :=
  {| pre_id := 3;
     pre_run := fun _ =>
       {| calls := [];
          outcome := Ok (Some {| done_id := 5;
                                 done_run := fun _ =>
                                   {| calls := []; outcome := Ok (Some observing) |} |}) |} |}.

Definition subscriptionOptions (ctx : option TransportContext) : WrapExecuteWithHooksOptions :=
  {| executor := subscribing;
     onSubgraphExecuteHooks := [observingHook];
     subgraphName := "a";
     transportEntryMap := None;
     getSubgraphSchema := fun _ => aSchema;
     transportContext := ctx |}.

(** No hook is registered. *)
Definition plainOptions : WrapExecuteWithHooksOptions :=
  {| executor := upstream;
     onSubgraphExecuteHooks := [];
     subgraphName := "a";
     transportEntryMap := None;
     getSubgraphSchema := fun _ => aSchema;
     transportContext := None |}.

(** Two SDL texts that differ in white space only. *)
Definition sdlTight : string := "type Query { x: Int }".
Definition sdlLoose : string := "type  Query {
  x: Int
}".

Definition erroring : Merger.SourceExecutor :=
  fun _ => Ok (Single {| result_data := VNull; result_errors := Some ["boom"] |}).

Definition federatedSchema : GraphQLSchema :=
  {| schema_queryFields := Some ["_service"; "me"]; schema_link := false;
     schema_source := "type Query { _service: _Service! me: User }";
     schema_resolvers := [] |}.


Definition plainSource : Merger.RawSource :=
  {| Merger.source_name := "plain";
     Merger.source_schema := aSchema;
     Merger.source_executor := erroring;
     Merger.source_batch := None;
     Merger.source_merge := None |}.

(** A store proxy that runs the setter and hands back what it made. *)
Definition runSetter : string -> Merger.MM GraphQLSchema -> Merger.MM GraphQLSchema :=
  fun _ setter => setter.

Definition schemaOfText (sdl : string) : GraphQLSchema :=
  {| schema_queryFields := None; schema_link := false; schema_source := sdl;
     schema_resolvers := [] |}.

(** Scenario 1 of the specification: one subgraph "a" of kind "k" whose
    transport is registered inline; its factory is asynchronous. *)
Definition echo : Executor :=
  {| exec_id := 4; exec_disposable := true;
     exec_run := fun _ => Ok (Single (okResult true)) |}.

Definition slowFactory : Cache.Factory :=
  {| Cache.factory_run := fun _ => Ok echo; Cache.factory_async := true |}.

Definition runtimeOptions : Cache.Options :=
  {| Cache.rt_onSubgraphExecuteHooks := [];
     Cache.rt_transports :=
       Registry.TransportsMap {[ "k" := VObj [("getSubgraphExecutor", VFun slowFactory)] ]};
     Cache.rt_transportContext := withLogger;
     Cache.rt_transportEntryMap :=
       Some {[ "a" := {| entry_kind := "k"; entry_location := None |} ]};
     Cache.rt_getSubgraphSchema := fun _ => aSchema |}.

(** Two requests, at addresses 1 and 2. *)
Definition twoRequests : Store :=
  {| requests := {[ 1%positive := {| req_operationName := Some "r1";
                                     req_contextRequest := None; req_info := None |};
                    2%positive := {| req_operationName := Some "r2";
                                     req_contextRequest := None; req_info := None |} ]};
     infos := ∅;
     requestIdByRequest := ∅;
     loggerForExecutionRequest := ∅ |}.

(** Scenario 5 of the specification: the subgraph "g" asks for the kind
    "ghost", which no one provides. *)
Definition ghostOptions : Cache.Options :=
  {| Cache.rt_onSubgraphExecuteHooks := [];
     Cache.rt_transports := Registry.TransportsNone;
     Cache.rt_transportContext := withLogger;
     Cache.rt_transportEntryMap :=
       Some {[ "g" := {| entry_kind := "ghost"; entry_location := None |} ]};
     Cache.rt_getSubgraphSchema := fun _ => aSchema |}.

(** The transport entry is registered under the name "MyApi". *)
Definition apiOptions : Cache.Options :=
  {| Cache.rt_onSubgraphExecuteHooks := [];
     Cache.rt_transports :=
       Registry.TransportsMap {[ "k" := VObj [("getSubgraphExecutor", VFun slowFactory)] ]};
     Cache.rt_transportContext := withLogger;
     Cache.rt_transportEntryMap :=
       Some {[ "MyApi" := {| entry_kind := "k"; entry_location := None |} ]};
     Cache.rt_getSubgraphSchema := fun _ => aSchema |}.

End Scenario.

(** ** What the done hooks do to a result, when all goes well *)

(** The result after one done hook: the argument of its last [setResult]
    call, or the result as it was. *)
Definition rewriteDone (hook : OnSubgraphExecuteDoneHook) (currentResult : Result) : Result :=
  fold_left (fun _ res => res) (calls (done_run hook currentResult)) currentResult.

(** The result after all done hooks, first registered first. *)
Definition afterDone (hooks : list OnSubgraphExecuteDoneHook) (currentResult : Result)
    : Result :=
  fold_left (fun x hook => rewriteDone hook x) hooks currentResult.

(** The calls of the done hooks, each with the result as the hooks before
    it left it. *)
Fixpoint doneTrace (hooks : list OnSubgraphExecuteDoneHook) : list Event :=
  match hooks with
  | [] => []
  | hook :: rest => EvDoneHook (done_id hook) :: doneTrace rest
  end.

(** What the done hooks return, for those that return something. *)
Fixpoint doneCollected (hooks : list OnSubgraphExecuteDoneHook) (currentResult : Result)
    : list OnSubgraphExecuteDoneResult :=
  match hooks with
  | [] => []
  | hook :: rest =>
      match outcome (done_run hook currentResult) with
      | Ok (Some d) => d :: doneCollected rest (rewriteDone hook currentResult)
      | _ => doneCollected rest (rewriteDone hook currentResult)
      end
  end.

(** A pre-hook that only looks: it calls no setter and returns no done
    hook, whatever it is given. *)
Definition silent (hook : OnSubgraphExecuteHook) : Prop :=
  forall payload, pre_run hook payload = {| calls := []; outcome := Ok None |}.


(** ** The source map of the unified schema *)

Module SourceMap.
(** [stitchingInfo.subschemaMap], as the pairs of a source's name and its
    transformed schema, in the order of the map. *)
Definition SubschemaMap := list (string * GraphQLSchema).

(** The function behind [sourceMap.get(rawSource)]. *)
Fixpoint get (subschemaMap : SubschemaMap) (name : string) : option GraphQLSchema :=
  match subschemaMap with
  | [] => None
  | (subschemaName, transformedSchema) :: rest =>
      if String.eqb subschemaName name then Some transformedSchema else get rest name
  end.

(** A call [sourceMap[pKey](rawSource)] through the proxy. *)
Definition call (subschemaMap : SubschemaMap) (pKey : string) (name : string)
    : Res (option GraphQLSchema) :=
  if String.eqb pKey "get" then Ok (get subschemaMap name)
  else Throw (PlainError "Not Implemented").
End SourceMap.

(** ** Serving: port, forks and upgrade headers *)

Module Serve.

(** A number that may be missing: [undefined] and [NaN] are [None]. *)
Definition numTruthy (n : option Z) : bool :=
  match n with
  | Some z => negb (z =? 0)%Z
  | None => false
  end.

Record PortWarning := {
  warn_activeSources : list string;
  warn_port : Z
}.

(** [portSelectorFn]: the port, and what is logged as a warning if anything.
    The sources are the port of the command line, of the serve configuration
    and of the environment. *)
Definition portSelectorFn (sources : option Z * option Z * option Z)
    : Z * option PortWarning :=
  let '(cli, config, env) := sources in
  let port := match List.find numTruthy [cli; config; env] with
              | Some (Some p) => p
              | _ => 4000%Z
              end in
  (port,
   if (1 <? length (List.filter numTruthy [cli; config; env]))%nat then
     Some {| warn_activeSources :=
               (if numTruthy cli then ["CLI"] else [])
               ++ (if numTruthy config then ["serve configuration"] else [])
               ++ (if numTruthy env then ["environment variable"] else []);
             warn_port := port |}
   else None).

Inductive ConfigFork :=
| ForkBool (b : bool)
| ForkNumber (n : Z).

Section Fork.
(** [parseInt] and [cpus().length]. *)
Variable parseInt : string -> option Z.
Variable cpus : Z.

(** [forkNum] of [serveMesh], from [process.env.FORK] and the [fork] of the
    serve configuration; [None] when it stays [undefined] or is [NaN]. *)
Definition forkNumOf (envFork : option string) (configFork : option ConfigFork)
    : option Z :=
  match envFork with
  | Some e =>
      if String.eqb e "false" || String.eqb e "0" then Some 0%Z
      else if String.eqb e "true" then Some cpus
      else parseInt e
  | None =>
      match configFork with
      | Some (ForkBool b) => Some (if b then cpus else 0%Z)
      | Some (ForkNumber n) => Some n
      | None => None
      end
  end.

(** [!cluster.isWorker && forkNum > 0] *)
Definition forks (isWorker : bool) (forkNum : option Z) : bool :=
  negb isWorker && match forkNum with Some n => (0 <? n)%Z | None => false end.

(** How many workers the process forks; it serves itself when it forks
    none. *)
Definition workersForked (isWorker : bool) (envFork : option string)
    (configFork : option ConfigFork) : Z :=
  let forkNum := forkNumOf envFork configFork in
  if forks isWorker forkNum then default 0%Z forkNum else 0%Z.
End Fork.

Section Headers.
(** [String.prototype.toLowerCase] *)
Variable toLowerCase : string -> string.

(** One round of the loop of [onSubscribe] over the headers of the
    connection parameters. Members that the headers object inherits are not
    modelled. *)
Definition mergeHeader (headers : gmap string string) (entry : string * string)
    : gmap string string :=
  match headers !! toLowerCase entry.1 with
  | Some _ => headers
  | None => <[toLowerCase entry.1 := entry.2]> headers
  end.

(** The upgrade request's headers after the loop;
    [connectionParams?.headers ?? {}] is the list of its entries. *)
Definition mergeConnectionHeaders (connectionHeaders : option (list (string * string)))
    (headers : gmap string string) : gmap string string :=
  fold_left mergeHeader (default [] connectionHeaders) headers.
End Headers.

(** [toLowerCase] on ASCII text. *)
Definition lowerAscii (c : ascii) : ascii :=
  let n := nat_of_ascii c in
  if (65 <=? n)%nat && (n <=? 90)%nat then ascii_of_nat (n + 32) else c.

Definition toLowerCaseAscii (s : string) : string :=
  string_of_list_ascii (map lowerAscii (list_ascii_of_string s)).
End Serve.

(** ** The OpenTelemetry plugin *)

Module Telemetry.

Record TracingOptions := {
  tracing_resolvers : bool;
  tracing_variables : bool;
  tracing_result : bool
}.

Definition EXECUTION_ERROR : string := "graphql.execute.error".
Definition EXECUTION_RESULT : string := "graphql.execute.result".
Definition EXECUTION_OPERATION_NAME : string := "graphql.execute.operationName".
Definition EXECUTION_OPERATION_DOCUMENT : string := "graphql.execute.document".
Definition EXECUTION_VARIABLES : string := "graphql.execute.variables".

(** What is done to the execution span, and to the console. *)
Inductive SpanOp :=
| SetAttribute (key value : string)
| RecordException (name message : string)
| SpanEnd
| ConsoleWarn.

Definition is_end (op : SpanOp) : bool :=
  match op with SpanEnd => true | _ => false end.

Definition is_exception (op : SpanOp) : bool :=
  match op with RecordException _ _ => true | _ => false end.

Definition is_attribute (op : SpanOp) : bool :=
  match op with SetAttribute _ _ => true | _ => false end.

Section Plugin.
(** [JSON.stringify] on a result, on its errors and on variable values, and
    [getDocumentString(document, print)]. *)
Variable stringifyResult : ExecutionResult -> string.
Variable stringifyErrors : list GraphQLError -> string.
Variable stringifyVariables : Json -> string.
Context {Document : Type}.
Variable getDocumentString : Document -> string.

Variable options : TracingOptions.

(** [onExecuteDone({ result })] *)
Definition onExecuteDone (result : Result) : list SpanOp :=
  match result with
  | Stream _ => [SpanEnd; ConsoleWarn]
  | Single r =>
      (if truthy (result_data r) && tracing_result options
       then [SetAttribute EXECUTION_RESULT (stringifyResult r)] else [])
      ++ (match result_errors r with
          | Some (e :: es) => [RecordException EXECUTION_ERROR (stringifyErrors (e :: es))]
          | _ => []
          end)
      ++ [SpanEnd]
  end.

Record ExecutionArgs := {
  args_operationName : option string;
  args_document : Document;
  args_variableValues : option Json
}.

(** The name of the span [onExecute] starts. *)
Definition spanName (args : ExecutionArgs) : string :=
  match args_operationName args with
  | Some name => if String.eqb name "" then "Anonymous Operation" else name
  | None => "Anonymous Operation"
  end.

(** The attributes of the span [onExecute] starts: an object literal that
    spreads the additional attributes first. A value may be [undefined]. *)
Definition spanAttributes (spanAdditionalAttributes : gmap string (option string))
    (args : ExecutionArgs) : gmap string (option string) :=
  let named := <[EXECUTION_OPERATION_NAME := args_operationName args]>
                 spanAdditionalAttributes in
  let documented := <[EXECUTION_OPERATION_DOCUMENT :=
                        Some (getDocumentString (args_document args))]> named in
  if tracing_variables options
  then <[EXECUTION_VARIABLES :=
           Some (stringifyVariables (default (VObj []) (args_variableValues args)))]>
         documented
  else documented.
End Plugin.
End Telemetry.

(** ** What the pre-hooks do to the request and the executor, when all goes well *)

(** The variables after all pre-hooks, first registered first: each hook is
    given the request and the executor as the hooks before it left them. *)
Definition afterPre (opts : WrapExecuteWithHooksOptions) (requestId : option string)
    (execReqLogger : option Logger) (hooks : list OnSubgraphExecuteHook) (v : PreVars)
    : PreVars :=
  fold_left
    (fun v hook =>
       afterCalls (calls (pre_run hook (payloadAt opts requestId execReqLogger v))) v)
    hooks v.

(** The calls of the pre-hooks, each with the request and the executor
    current at that moment. *)
Fixpoint preTrace (opts : WrapExecuteWithHooksOptions) (requestId : option string)
    (execReqLogger : option Logger) (hooks : list OnSubgraphExecuteHook) (v : PreVars)
    : list Event :=
  match hooks with
  | [] => []
  | hook :: rest =>
      EvPreHook (pre_id hook) v.1 (exec_id v.2)
      :: preTrace opts requestId execReqLogger rest
           (afterCalls (calls (pre_run hook (payloadAt opts requestId execReqLogger v))) v)
  end.

(** ** Further concrete inputs *)

Module Examples.
(** The runtime of scenario 1 after a first call for "a" has settled. *)
Definition warm : Cache.World :=
  Cache.run Scenario.runtimeOptions Scenario.nothingInstalled
    [Cache.Call "a" 1%positive; Cache.Resume 0; Cache.Resume 0]
    (Cache.init Scenario.twoRequests).

(** A pre-hook that only looks. *)
Definition lookHook : OnSubgraphExecuteHook :=
  {| pre_id := 11; pre_run := fun _ => {| calls := []; outcome := Ok None |} |}.


Definition lookOptions : WrapExecuteWithHooksOptions :=
  {| executor := Scenario.upstream;
     onSubgraphExecuteHooks := [lookHook; lookHook];
     subgraphName := "a";
     transportEntryMap := None;
     getSubgraphSchema := fun _ => Scenario.aSchema;
     transportContext := None |}.


(** A done hook that replaces the result and returns nothing. *)
Definition approveHook : OnSubgraphExecuteDoneHook :=
  {| done_id := 13;
     done_run := fun _ => {| calls := [Single (Scenario.okResult true)];
                             outcome := Ok None |} |}.

(** A request that came in with the HTTP request at address 7, whose id is
    "req-1". *)
Definition tracedRequest : Store :=
  {| requests := {[ 1%positive := {| req_operationName := Some "q";
                                     req_contextRequest := Some 7%positive;
                                     req_info := None |} ]};
     infos := ∅;
     requestIdByRequest := {[ 7%positive := "req-1" ]};
     loggerForExecutionRequest := ∅ |}.

(** The module of the kind is installed and exports a factory. *)
Definition installed : Registry.Importer Cache.Factory :=
  fun _ => Some [("getSubgraphExecutor", VFun Scenario.slowFactory)].

(** An inline module with a default member and a member of its own. *)
Definition defaultModule : gmap string (JSVal Cache.Factory) :=
  {[ "k" := VObj [("default", VObj [("getSubgraphExecutor", VFun Scenario.slowFactory)]);
                  ("getSubgraphExecutor", VNum 42)] ]}.

Definition accountsSdl : string := "type Query { me: User }".

(** A federated source that answers the SDL query, with an empty list of
    errors. *)
Definition answering : Merger.SourceExecutor :=
  fun _ => Ok (Single {| result_data := VObj [("_service", VObj [("sdl", VStr accountsSdl)])];
                         result_errors := Some [] |}).

Definition inventory : Merger.RawSource :=
  {| Merger.source_name := "inventory";
     Merger.source_schema := Scenario.federatedSchema;
     Merger.source_executor := answering;
     Merger.source_batch := Some false;
     Merger.source_merge := None |}.

End Examples.

(** * Properties *)

(** ** Text *)

Lemma append_cons (x : ascii) (a b : string) : String x a +:+ b = String x (a +:+ b).
Proof. reflexivity. Qed.

Lemma append_nil_l (b : string) : "" +:+ b = b.
Proof. reflexivity. Qed.

Lemma append_assoc (a b c : string) : (a +:+ b) +:+ c = a +:+ b +:+ c.
Proof.
  induction a as [|x a IH]; [reflexivity |].
  rewrite !append_cons. now f_equal.
Qed.

Lemma prefix_spec (needle msg : string) :
  String.prefix needle msg = true <-> exists post, msg = needle +:+ post.
Proof.
  revert msg. induction needle as [|x needle IH]; intros msg.
  - split; [intros _; now exists msg | now destruct msg].
  - destruct msg as [|y msg]; cbn [String.prefix].
    + split; [discriminate | intros [post H]; discriminate].
    + destruct (ascii_dec x y) as [->|Hne].
      * rewrite IH. split; intros [post H]; exists post.
        -- rewrite append_cons. now rewrite H.
        -- rewrite append_cons in H. now injection H.
      * split; [discriminate |].
        intros [post H]. rewrite append_cons in H. injection H; intros; congruence.
Qed.

Lemma occurs_spec (needle msg : string) : occurs needle msg = true <-> names needle msg.
Proof.
  unfold names. induction msg as [|y msg IH].
  - cbn [occurs]. rewrite orb_false_r, prefix_spec. split.
    + intros [post H]. now exists "", post.
    + intros [pre [post H]]. destruct pre.
      * now exists post.
      * rewrite append_cons in H. discriminate.
  - cbn [occurs]. rewrite orb_true_iff, IH, prefix_spec. split.
    + intros [[post H] | [pre [post H]]].
      * now exists "", post.
      * exists (String y pre), post. rewrite append_cons. now rewrite H.
    + intros [pre [post H]]. destruct pre as [|z pre].
      * left. now exists post.
      * right. rewrite append_cons in H. injection H as _ H. now exists pre, post.
Qed.

Lemma names_mid (pre needle post : string) : names needle (pre +:+ needle +:+ post).
Proof. now exists pre, post. Qed.



(** ** The monads *)

Lemma Res_bind_Ok {A B} (f : A -> Res B) (a : A) : (Ok a ≫= f) = f a.
Proof. reflexivity. Qed.

Lemma Res_bind_Throw {A B} (f : A -> Res B) (e : Error) : (Throw e ≫= f) = Throw e.
Proof. reflexivity. Qed.

(** ** The transport registry *)

Section RegistryFacts.
Context {F : Type}.
Implicit Types (transports : Registry.Transports F) (import : Registry.Importer F).

Lemma notFoundMessage_names_kind kind : names kind (Registry.notFoundMessage kind).
Proof. unfold Registry.notFoundMessage. apply names_mid. Qed.

Lemma notFoundMessage_names_module kind :
  names (Registry.moduleName kind) (Registry.notFoundMessage kind).
Proof.
  unfold Registry.notFoundMessage.
  exists ("No transport found for " +:+ kind +:+ ". Please make sure you have installed "),
    (" or defined the transport config in " +:+ dq +:+ "mesh.config.ts" +:+ dq).
  now rewrite !append_assoc.
Qed.

(** With a logger that has a [child] method, an unknown kind is reported by
    an error that names the kind and the module looked for. *)
Lemma getTransport_not_found transports import kind l v :
  Registry.inlineTransport transports kind = Ok v ->
  truthy v = false ->
  logger_has_child l = true ->
  import (Registry.moduleName kind) = None ->
  Registry.getTransport transports (Some l) import kind
    = Throw (PlainError (Registry.notFoundMessage kind)).
Proof.
  intros Hv Hf Hl Hi. unfold Registry.getTransport.
  rewrite Hv, Res_bind_Ok, Hf. unfold logger_child. rewrite Hl, Res_bind_Ok, Hi.
  reflexivity.
Qed.

(** What is found inline is returned as the code picks it, unchecked. *)
Lemma getTransport_inline transports logger import kind v :
  Registry.inlineTransport transports kind = Ok v ->
  truthy v = true ->
  Registry.getTransport transports logger import kind
    = Registry.pickGetSubgraphExecutor v.
Proof.
  intros Hv Ht. unfold Registry.getTransport. now rewrite Hv, Res_bind_Ok, Ht.
Qed.

(** A discovered module is checked. *)
Lemma getTransport_discovered transports import kind l v module g :
  Registry.inlineTransport transports kind = Ok v ->
  truthy v = false ->
  import (Registry.moduleName kind) = Some module ->
  Registry.pickGetSubgraphExecutor (VObj module) = Ok g ->
  Registry.getTransport transports (Some l) import kind =
    if negb (truthy g) then Throw (PlainError (Registry.notExportedMessage kind))
    else if negb (is_function g) then Throw (PlainError (Registry.notAFunctionMessage kind))
    else Ok g.
Proof.
  intros Hv Hf Hi Hg. unfold Registry.getTransport.
  now rewrite Hv, Res_bind_Ok, Hf, Res_bind_Ok, Hi, Hg, Res_bind_Ok.
Qed.

(** C8, as amended: a module found in the inline registry or mapping is not
    checked, the member the code picks is returned as it is; with a logger,
    a module found by dynamic discovery whose picked [getSubgraphExecutor]
    is missing or not callable makes [getTransport] raise one of the two
    "misshaped" errors. *)
Theorem getTransport_checks_discovered_modules_only transports logger import kind v :
  Registry.inlineTransport transports kind = Ok v ->
  (truthy v = true ->
     Registry.getTransport transports logger import kind
       = Registry.pickGetSubgraphExecutor v)
  /\ (truthy v = false ->
      forall l module g,
        logger = Some l ->
        import (Registry.moduleName kind) = Some module ->
        Registry.pickGetSubgraphExecutor (VObj module) = Ok g ->
        is_function g = false ->
        exists e, Registry.getTransport transports logger import kind = Throw e
                  /\ Registry.misshaped kind e).
Proof.
  intros Hv. split.
  - intros Ht. now apply getTransport_inline.
  - intros Hf l module g -> Hi Hg Hfun.
    rewrite (getTransport_discovered _ _ _ l v module g Hv Hf Hi Hg).
    destruct (truthy g); cbn [negb].
    + rewrite Hfun. cbn [negb]. eexists; split; [reflexivity | now right].
    + eexists; split; [reflexivity | now left].
Qed.
End RegistryFacts.

Lemma getTransport_checks_discovered_modules_only_witness :
  exists e,
    Registry.getTransport Registry.TransportsNone (Some Scenario.rootLogger)
      Scenario.hollowDefault "k" = Throw e
    /\ Registry.misshaped "k" e.
Proof.
  exact (proj2 (getTransport_checks_discovered_modules_only
                  Registry.TransportsNone (Some Scenario.rootLogger)
                  Scenario.hollowDefault "k" VUndefined eq_refl)
           eq_refl Scenario.rootLogger [("default", VObj [])] VUndefined
           eq_refl eq_refl eq_refl eq_refl).
Defined.

(** C8, as stated, fails: a module registered inline that has no
    [getSubgraphExecutor], or a number under that name, raises nothing;
    [getTransport] returns [undefined], or the number. *)
Lemma inline_misshaped_module_is_not_rejected :
  Registry.inlineTransport (Registry.TransportsMap {["k" := Scenario.emptyModule]}) "k"
    = Ok Scenario.emptyModule
  /\ Registry.exposes_factory Scenario.emptyModule = false
  /\ Registry.getTransport (Registry.TransportsMap {["k" := Scenario.emptyModule]})
       (Some Scenario.rootLogger) Scenario.nothingInstalled "k" = Ok VUndefined
  /\ Registry.exposes_factory Scenario.numberModule = false
  /\ Registry.getTransport (Registry.TransportsFn (fun _ => Ok Scenario.numberModule))
       (Some Scenario.rootLogger) Scenario.nothingInstalled "k" = Ok (VNum 42).
Proof. repeat split; vm_compute; reflexivity. Qed.

(** Without a logger, any kind that is not registered inline ends in a
    [TypeError], whether its module could be imported or not. *)
Lemma getTransport_without_logger transports import kind v :
  Registry.inlineTransport (F:=Cache.Factory) transports kind = Ok v ->
  truthy v = false ->
  Registry.getTransport transports None import kind
    = Throw (TypeError "Cannot read properties of undefined (reading 'child')").
Proof.
  intros Hv Hf. unfold Registry.getTransport. now rewrite Hv, Res_bind_Ok, Hf.
Qed.

(** With a logger that has no [child] method, the import failure is
    replaced by the [TypeError] of the log call in the handler. *)
Lemma getTransport_with_flat_logger transports import kind v l :
  Registry.inlineTransport (F:=Cache.Factory) transports kind = Ok v ->
  truthy v = false ->
  logger_has_child l = false ->
  import (Registry.moduleName kind) = None ->
  Registry.getTransport transports (Some l) import kind
    = Throw (TypeError "Cannot read properties of undefined (reading 'error')").
Proof.
  intros Hv Hf Hl Hi. unfold Registry.getTransport.
  rewrite Hv, Res_bind_Ok, Hf. unfold logger_child. rewrite Hl, Res_bind_Ok, Hi.
  reflexivity.
Qed.

(** C7 at an input it fails on: no logger was given, the kind "ghost" is
    registered nowhere and its module is not installed. [getTransport]
    raises a [TypeError] whose message names neither the kind nor the
    module, not the "No transport found" error. *)
Theorem getTransport_ghost_without_logger :
  exists msg,
    Registry.getTransport Registry.TransportsNone None Scenario.nothingInstalled "ghost"
      = Throw (TypeError msg)
    /\ ~ names "ghost" msg
    /\ ~ names (Registry.moduleName "ghost") msg.
Proof.
  eexists. split; [reflexivity |].
  split; rewrite <- occurs_spec; vm_compute; discriminate.
Qed.

(** ** The hook pipeline *)

(** *** Attaching the request to its resolver info *)

Lemma attachExecutionRequest_attached (st : Store) (r : ReqRef) (req : ExecutionRequest) :
  requests st !! r = Some req ->
  (forall i, req_info req = Some i -> is_Some (infos st !! i)) ->
  exists req' i info,
    requests (attachExecutionRequest st r) !! r = Some req'
    /\ req_info req' = Some i
    /\ infos (attachExecutionRequest st r) !! i = Some info
    /\ info_executionRequest info = Some r.
Proof.
  intros Hr Hclosed. unfold attachExecutionRequest. rewrite Hr.
  destruct (req_info req) as [i|] eqn:Hinfo.
  - destruct (Hclosed i eq_refl) as [info Hi].
    exists req, i. eexists. cbn [requests infos].
    repeat split; [exact Hr | exact Hinfo | |].
    + rewrite lookup_alter_eq, Hi. reflexivity.
    + reflexivity.
  - eexists _, _, _. cbn [requests infos].
    repeat split.
    + apply lookup_insert_eq.
    + reflexivity.
    + apply lookup_insert_eq.
    + reflexivity.
Qed.

Lemma executorWithHooks_store (opts : WrapExecuteWithHooksOptions) (st : Store) (r : ReqRef) :
  requests (executorWithHooks opts st r).1 = requests (attachExecutionRequest st r)
  /\ infos (executorWithHooks opts st r).1 = infos (attachExecutionRequest st r).
Proof.
  unfold executorWithHooks. cbn [fst].
  unfold setExecReqLogger.
  destruct (execReqLoggerOf _ _); split; reflexivity.
Qed.

(** C10: whatever the options, also with no hook at all, the store a call of
    the wrapped executor leaves has [request.info.executionRequest = request];
    a request without info gets an info object. The two hypotheses say that
    the request and, when it has one, its info object exist. *)
Theorem executorWithHooks_attaches_request
    (opts : WrapExecuteWithHooksOptions) (st : Store) (r : ReqRef) (req : ExecutionRequest) :
  requests st !! r = Some req ->
  (forall i, req_info req = Some i -> is_Some (infos st !! i)) ->
  exists req' i info,
    requests (executorWithHooks opts st r).1 !! r = Some req'
    /\ req_info req' = Some i
    /\ infos (executorWithHooks opts st r).1 !! i = Some info
    /\ info_executionRequest info = Some r.
Proof.
  intros Hr Hclosed.
  destruct (executorWithHooks_store opts st r) as [-> ->].
  now apply (attachExecutionRequest_attached st r req).
Qed.

Lemma executorWithHooks_attaches_request_witness :
  exists req' i info,
    requests (executorWithHooks Scenario.plainOptions Scenario.oneRequest 1%positive).1
      !! 1%positive = Some req'
    /\ req_info req' = Some i
    /\ infos (executorWithHooks Scenario.plainOptions Scenario.oneRequest 1%positive).1
         !! i = Some info
    /\ info_executionRequest info = Some 1%positive.
Proof.
  apply (executorWithHooks_attaches_request Scenario.plainOptions Scenario.oneRequest
           1%positive
           {| req_operationName := Some "q"; req_contextRequest := None; req_info := None |}).
  - vm_compute. reflexivity.
  - intros i H. discriminate H.
Defined.

(** *** Setters *)

Section Setters.
Context {S C : Type}.
Variable assign : C -> S -> S.

(** With a request logger every setter call assigns. *)
Lemma setter_calls_logged (l : Logger) (cs : list C) (v : S) :
  setter_calls (Some l) assign cs v = (fold_left (fun v c => assign c v) cs v, [], Ok tt).
Proof.
  revert v. induction cs as [|c cs IH]; intros v; [reflexivity |].
  cbn [setter_calls fold_left]. unfold mbind, Proc_bind, setter. cbn [log_call].
  now rewrite IH.
Qed.


Lemma call_hook_logged {R} (l : Logger) (run : HookRun C R) (v : S) :
  call_hook (Some l) assign run v
    = (fold_left (fun v c => assign c v) (calls run) v, [], outcome run).
Proof.
  unfold call_hook, mbind, Proc_bind. rewrite setter_calls_logged.
  unfold liftP. reflexivity.
Qed.


(** A callback that calls no setter is not affected by the logger. *)
Lemma call_hook_silent {R} (logger : option Logger) (run : HookRun C R) (v : S) :
  calls run = [] -> call_hook logger assign run v = (v, [], outcome run).
Proof. intros H. unfold call_hook, mbind, Proc_bind. rewrite H. reflexivity. Qed.
End Setters.

(** *** Pre-hooks *)

Section PreHooks.
Variable opts : WrapExecuteWithHooksOptions.
Variable requestId : option string.
Variable l : Logger.

Lemma callPreHook_logged (hook : OnSubgraphExecuteHook) (v : PreVars) :
  callPreHook opts requestId (Some l) hook v
    = (afterCalls (calls (pre_run hook (payloadAt opts requestId (Some l) v))) v,
       [EvPreHook (pre_id hook) v.1 (exec_id v.2)],
       outcome (pre_run hook (payloadAt opts requestId (Some l) v))).
Proof.
  unfold callPreHook, mbind, Proc_bind, getP, emitP.
  rewrite call_hook_logged. reflexivity.
Qed.

(** With a request logger, what a pre-hook assigned through
    [setExecutionRequest] and [setExecutor] is what the next pre-hooks are
    called with: the rest of the hooks runs from the variables the hook
    left. *)
Lemma iterateAsync_pre_cons (hook : OnSubgraphExecuteHook)
    (rest : list OnSubgraphExecuteHook) (dones : list OnSubgraphExecuteDoneHook)
    (v : PreVars) (d : option OnSubgraphExecuteDoneHook) :
  outcome (pre_run hook (payloadAt opts requestId (Some l) v)) = Ok d ->
  iterateAsync (hook :: rest) (callPreHook opts requestId (Some l)) dones v
    = let v' := afterCalls (calls (pre_run hook (payloadAt opts requestId (Some l) v))) v in
      let '(v'', evs, r) :=
        iterateAsync rest (callPreHook opts requestId (Some l))
          (match d with Some b => dones ++ [b] | None => dones end) v' in
      (v'', EvPreHook (pre_id hook) v.1 (exec_id v.2) :: evs, r).
Proof.
  intros Hd. cbn [iterateAsync]. unfold mbind at 1. unfold Proc_bind.
  rewrite callPreHook_logged, Hd. reflexivity.
Qed.

(** And it is what the executor is called with in the end: with no done
    hook, the call is the last executor assigned on the last request
    assigned. *)
Lemma afterPreHooks_invokes_current (v : PreVars) :
  afterPreHooks (Some l) [] v = (v, [EvExecute (exec_id v.2) v.1], exec_run v.2 v.1).
Proof.
  unfold afterPreHooks, mbind, Proc_bind, getP. cbn [length Nat.eqb].
  unfold invoke, mbind, Proc_bind, emitP, liftP. cbn [app]. reflexivity.
Qed.
End PreHooks.

(** With a request logger, a single pre-hook that calls [setExecutor(fake)]
    and registers no done hook makes the pipeline call [fake] and nothing
    else: the caller gets what [fake] returns. *)
Lemma setExecutor_replaces_executor (opts : WrapExecuteWithHooksOptions) (st : Store)
    (r : ReqRef) (hook : OnSubgraphExecuteHook) (fake : Executor) (l : Logger) :
  onSubgraphExecuteHooks opts = [hook] ->
  execReqLoggerOf opts (requestIdOf (attachExecutionRequest st r) r) = Some l ->
  (forall p, pre_run hook p = {| calls := [setExecutor fake]; outcome := Ok None |}) ->
  (executorWithHooks opts st r).2
    = ([EvPreHook (pre_id hook) r (exec_id (executor opts)); EvExecute (exec_id fake) r],
       exec_run fake r).
Proof.
  intros Hhooks Hl Hrun. unfold executorWithHooks. cbn [snd].
  rewrite Hhooks, Hl. cbn [length Nat.eqb].
  unfold runProc, mbind at 1. unfold Proc_bind.
  rewrite (iterateAsync_pre_cons _ _ _ hook [] [] _ None) by now rewrite Hrun.
  rewrite Hrun. cbn [calls iterateAsync]. unfold mret at 1. unfold Proc_ret.
  rewrite afterPreHooks_invokes_current. reflexivity.
Qed.

(** C3 at an input it fails on: no logger was given and the only pre-hook
    calls [setExecutor(fake)]. The setter throws before it assigns: the
    caller gets a [TypeError], not what [fake] returns, and no executor is
    called at all. *)
Theorem setExecutor_without_logger_throws :
  (executorWithHooks (Scenario.swapOptions None) Scenario.oneRequest 1%positive).2
    = ([EvPreHook 1 1%positive 0],
       Throw (TypeError "Cannot read properties of undefined (reading 'debug')"))
  /\ exec_run Scenario.fake 1%positive = Ok (Single (Scenario.okResult true)).
Proof. split; reflexivity. Qed.

(** The same scenario with a logger: the upstream executor is not called and
    the caller gets what [fake] returns. *)
Example setExecutor_with_logger :
  (executorWithHooks (Scenario.swapOptions Scenario.withLogger) Scenario.oneRequest
     1%positive).2
    = ([EvPreHook 1 1%positive 0; EvExecute 9 1%positive],
       Ok (Single (Scenario.okResult true))).
Proof. reflexivity. Qed.

(** *** Streams *)

Lemma finishResult_single (logger : option Logger) (r : ExecutionResult)
    (executeDoneResults : list OnSubgraphExecuteDoneResult) :
  finishResult logger (Single r) executeDoneResults = Single r.
Proof. reflexivity. Qed.


(** At least one observer: the stream is wrapped. *)
Lemma finishResult_observed (logger : option Logger) (s : AsyncStream)
    (executeDoneResults : list OnSubgraphExecuteDoneResult) :
  omap onNext executeDoneResults <> [] \/ omap onEnd executeDoneResults <> [] ->
  finishResult logger (Stream s) executeDoneResults
    = Stream (mapAsyncIterator s
                (onNextItem logger (omap onNext executeDoneResults))
                (onEndAll (omap onEnd executeDoneResults))).
Proof.
  intros H. unfold finishResult.
  destruct executeDoneResults as [|d ds]; [destruct H as [H|H]; now elim H |].
  cbn [length Nat.eqb].
  destruct (omap onNext (d :: ds)) as [|n ns] eqn:Hn;
    destruct (omap onEnd (d :: ds)) as [|e es] eqn:He; try reflexivity.
  destruct H as [H|H]; now elim H.
Qed.

Section Observers.
Variable l : Logger.

Lemma callOnNext_logged (hook : OnNextHook) (item : ExecutionResult) :
  callOnNext (Some l) hook item
    = (rewriteBy hook item, [EvOnNext (onNext_id hook) item],
       match outcome (onNext_run hook item) with
       | Ok _ => Ok None
       | Throw e => Throw e
       end).
Proof.
  unfold callOnNext, mbind, Proc_bind, getP, emitP.
  rewrite call_hook_logged. unfold rewriteBy.
  now destruct (outcome (onNext_run hook item)).
Qed.

(** With a request logger and [onNext] hooks that return normally, an item
    goes through every hook, in registration order, each hook seeing what
    the hooks before it made of the item. *)
Lemma onNextItem_logged (hooks : list OnNextHook) (item : ExecutionResult) :
  (forall hook x, hook ∈ hooks -> outcome (onNext_run hook x) = Ok tt) ->
  onNextItem (Some l) hooks item = (onNextTrace hooks item, Ok (rewritten hooks item)).
Proof.
  intros Hok. unfold onNextItem, runProc.
  enough (H : forall results : list unit,
             iterateAsync hooks (callOnNext (Some l)) results item
             = (rewritten hooks item, onNextTrace hooks item, Ok results)).
  { unfold mbind, Proc_bind. rewrite H. unfold getP. now rewrite app_nil_r. }
  revert item. induction hooks as [|hook rest IH]; intros item results; [reflexivity |].
  cbn [iterateAsync]. unfold mbind at 1. unfold Proc_bind.
  rewrite callOnNext_logged, (Hok hook item) by apply list_elem_of_here.
  rewrite IH by (intros h x Hh; apply Hok; now apply list_elem_of_further).
  reflexivity.
Qed.
End Observers.

(** [onEnd] hooks that return normally run once each, in registration
    order. *)
Lemma onEndAll_trace (hooks : list OnEndHook) :
  (forall hook, hook ∈ hooks -> onEnd_run hook = Ok tt) ->
  onEndAll hooks = (map (fun hook => EvOnEnd (onEnd_id hook)) hooks, Ok tt).
Proof.
  intros Hok. unfold onEndAll.
  destruct hooks as [|h0 rest0]; [reflexivity |]. cbn [length Nat.eqb].
  remember (h0 :: rest0) as hooks eqn:E. clear E h0 rest0.
  unfold runProc.
  enough (H : forall results : list unit,
             iterateAsync hooks callOnEnd results tt
             = (tt, map (fun hook => EvOnEnd (onEnd_id hook)) hooks, Ok results)).
  { unfold mbind, Proc_bind. rewrite H. unfold mret, Proc_ret. now rewrite app_nil_r. }
  induction hooks as [|hook rest IH]; intros results; [reflexivity |].
  cbn [iterateAsync]. unfold mbind at 1. unfold Proc_bind.
  unfold callOnEnd at 1. unfold mbind, Proc_bind, emitP, liftP, mret, Proc_ret.
  rewrite (Hok hook) by apply list_elem_of_here.
  rewrite IH by (intros h Hh; apply Hok; now apply list_elem_of_further).
  reflexivity.
Qed.

Lemma mapAsyncIterator_plain (items : list ExecutionResult)
    (tr : ExecutionResult -> list Event) (g : ExecutionResult -> ExecutionResult)
    (onNextFn : ExecutionResult -> M ExecutionResult) (end_evs : list Event) :
  (forall x, onNextFn x = (tr x, Ok (g x))) ->
  mapAsyncIterator (plainStream items) onNextFn (end_evs, Ok tt)
    = {| stream_pulls := map (fun x => (tr x, g x)) items;
         stream_close := (end_evs, None) |}.
Proof.
  intros Hn. unfold mapAsyncIterator, plainStream. cbn [stream_pulls stream_close].
  induction items as [|x items IH]; [reflexivity |].
  cbn [map mapPulls]. rewrite Hn, IH. reflexivity.
Qed.

(** With a request logger and observers that return normally, every item of
    the stream is handed over as all [onNext] hooks, in registration order,
    left it, and at the end of the stream every [onEnd] hook has run once, in
    registration order. *)
Lemma finishResult_stream_logged (l : Logger) (items : list ExecutionResult)
    (executeDoneResults : list OnSubgraphExecuteDoneResult) :
  omap onNext executeDoneResults <> [] \/ omap onEnd executeDoneResults <> [] ->
  (forall hook x, hook ∈ omap onNext executeDoneResults ->
                  outcome (onNext_run hook x) = Ok tt) ->
  (forall hook, hook ∈ omap onEnd executeDoneResults -> onEnd_run hook = Ok tt) ->
  finishResult (Some l) (Stream (plainStream items)) executeDoneResults
    = Stream
        {| stream_pulls :=
             map (fun x => (onNextTrace (omap onNext executeDoneResults) x,
                            rewritten (omap onNext executeDoneResults) x)) items;
           stream_close :=
             (map (fun hook => EvOnEnd (onEnd_id hook)) (omap onEnd executeDoneResults),
              None) |}.
Proof.
  intros Hobs Hnext Hend.
  rewrite finishResult_observed by exact Hobs.
  rewrite (onEndAll_trace _ Hend).
  f_equal. apply mapAsyncIterator_plain.
  intros x. now apply onNextItem_logged.
Qed.

(** Scenario 3 of the specification, with a logger: the consumer sees 10,
    20, 30 and the spy is called once, after the third item. *)
Example subscription_with_logger :
  finishResult (Some Scenario.rootLogger) (Stream Scenario.countTo3) [Scenario.observing]
    = Stream
        {| stream_pulls :=
             [([EvOnNext 7 (Scenario.item 1)], Scenario.item 10);
              ([EvOnNext 7 (Scenario.item 2)], Scenario.item 20);
              ([EvOnNext 7 (Scenario.item 3)], Scenario.item 30)];
           stream_close := ([EvOnEnd 8], None) |}.
Proof. reflexivity. Qed.

(** The same through the whole pipeline. *)
Example subscription_pipeline_with_logger :
  (executorWithHooks (Scenario.subscriptionOptions Scenario.withLogger)
     Scenario.oneRequest 1%positive).2
    = ([EvPreHook 3 1%positive 2; EvExecute 2 1%positive; EvDoneHook 5],
       Ok (Stream
             {| stream_pulls :=
                  [([EvOnNext 7 (Scenario.item 1)], Scenario.item 10);
                   ([EvOnNext 7 (Scenario.item 2)], Scenario.item 20);
                   ([EvOnNext 7 (Scenario.item 3)], Scenario.item 30)];
                stream_close := ([EvOnEnd 8], None) |})).
Proof. reflexivity. Qed.

(** Without a logger an [onNext] observer cannot rewrite the item: its
    [setResult] call throws, as the setters of the pre-hooks do. The consumer
    is handed no item and the stream ends on a [TypeError]. *)
Example setResult_without_logger_ends_stream :
  exists evs,
    finishResult None (Stream Scenario.countTo3) [Scenario.observing]
      = Stream
          {| stream_pulls := [];
             stream_close :=
               (evs, Some (TypeError
                  "Cannot read properties of undefined (reading 'debug')")) |}.
Proof. eexists. reflexivity. Qed.



Section AnyLogger.
Variable logger : option Logger.






End AnyLogger.


Section MapPulls.
Variable onNextFn : ExecutionResult -> M ExecutionResult.
Variable onEndFn : M unit.



End MapPulls.



(** ** Comparing schemas *)

Section CompareSchemasFacts.
Context {DocumentNode : Type}.
Variable print : DocumentNode -> string.
Variable printSchemaWithDirectives : GraphQLSchema -> string.
Variable parse : string -> DocumentNode.

Lemma canonicalSDL_printed (a : SchemaInput DocumentNode) :
  inPrintedForm print parse a ->
  canonicalSDL print printSchemaWithDirectives parse a
    = schemaText print printSchemaWithDirectives a.
Proof. destruct a; cbn; auto. Qed.

(** C5, as amended: [compareSchemas] compares the text of its inputs, where
    the text of a string is the string itself, not parsed and not printed
    again; for documents, schemas and strings that are in printed form
    already this is the comparison of the canonical printed forms. *)
Theorem compareSchemas_compares_texts (a b : SchemaInput DocumentNode) :
  (compareSchemas print printSchemaWithDirectives a b = true
     <-> schemaText print printSchemaWithDirectives a
         = schemaText print printSchemaWithDirectives b)
  /\ (inPrintedForm print parse a -> inPrintedForm print parse b ->
      (compareSchemas print printSchemaWithDirectives a b = true
         <-> canonicalSDL print printSchemaWithDirectives parse a
             = canonicalSDL print printSchemaWithDirectives parse b)).
Proof.
  unfold compareSchemas. split.
  - apply String.eqb_eq.
  - intros Ha Hb. rewrite !canonicalSDL_printed by assumption. apply String.eqb_eq.
Qed.
End CompareSchemasFacts.

Lemma compareSchemas_compares_texts_witness :
  compareSchemas WordPrinter.print WordPrinter.printSchemaWithDirectives
    (InString Scenario.sdlTight) (InDocument (WordPrinter.parse Scenario.sdlLoose)) = true
  <-> canonicalSDL WordPrinter.print WordPrinter.printSchemaWithDirectives WordPrinter.parse
        (InString Scenario.sdlTight)
      = canonicalSDL WordPrinter.print WordPrinter.printSchemaWithDirectives WordPrinter.parse
          (InDocument (WordPrinter.parse Scenario.sdlLoose)).
Proof.
  apply (proj2 (compareSchemas_compares_texts WordPrinter.print
                  WordPrinter.printSchemaWithDirectives WordPrinter.parse
                  (InString Scenario.sdlTight)
                  (InDocument (WordPrinter.parse Scenario.sdlLoose)))).
  - vm_compute. reflexivity.
  - simpl. exact I.
Defined.

(** C5, as stated, fails: two SDL strings that differ in white space only
    have the same canonical printed form and do not compare equal. *)
Lemma compareSchemas_strings_are_not_canonicalised :
  canonicalSDL WordPrinter.print WordPrinter.printSchemaWithDirectives WordPrinter.parse
    (InString Scenario.sdlTight)
  = canonicalSDL WordPrinter.print WordPrinter.printSchemaWithDirectives WordPrinter.parse
      (InString Scenario.sdlLoose)
  /\ compareSchemas WordPrinter.print WordPrinter.printSchemaWithDirectives
       (InString Scenario.sdlTight) (InString Scenario.sdlLoose) = false.
Proof. split; vm_compute; reflexivity. Qed.

(** ** The merger *)

Lemma MM_bind_Ok {A B} (f : A -> Merger.MM B) (evs : list Merger.MergerEvent) (a : A) :
  ((evs, Ok a) ≫= f) = (evs ++ (f a).1, (f a).2).
Proof. unfold mbind, Merger.MM_bind. now destruct (f a). Qed.

Lemma MM_bind_Throw {A B} (f : A -> Merger.MM B) (evs : list Merger.MergerEvent) (e : Error) :
  ((evs, Throw e) ≫= f) = (evs, Throw e).
Proof. reflexivity. Qed.

Section MergerFacts.
Variable printSchemaWithDirectives : GraphQLSchema -> string.
Variable federationToStitchingSDL : string -> string.
Variable buildSchema : string -> GraphQLSchema.
Variable addResolversToSchema : GraphQLSchema -> list string -> GraphQLSchema.
Variable stitchingDirectivesTransformer : Merger.RawSource -> option string.
Variable stitchSchemas : list Merger.RawSource -> Res GraphQLSchema.
Variable getWithSet : string -> Merger.MM GraphQLSchema -> Merger.MM GraphQLSchema.
Variable logger : Logger.

(** The store hands a failure of the setter on. *)
Hypothesis getWithSet_fails_with_setter :
  forall key evs e, getWithSet key (evs, Throw e) = (evs, Throw e).

Let replace := Merger.replaceFederationSDLWithStitchingSDL printSchemaWithDirectives
                 federationToStitchingSDL buildSchema addResolversToSchema getWithSet logger.
Let prepare := Merger.prepareSources printSchemaWithDirectives federationToStitchingSDL
                 buildSchema addResolversToSchema stitchingDirectivesTransformer
                 getWithSet logger.
Let merge := Merger.getUnifiedSchema printSchemaWithDirectives federationToStitchingSDL
               buildSchema addResolversToSchema stitchingDirectivesTransformer
               stitchSchemas getWithSet logger.



End MergerFacts.

(** ** The lazy executor cache *)

Import Cache.

Lemma filter_length_insert {A} (P : A -> bool) (l : list A) (i : nat) (t t' : A) :
  l !! i = Some t ->
  length (filter (fun x => P x = true) (<[i:=t']> l)) + (if P t then 1 else 0)
    = length (filter (fun x => P x = true) l) + (if P t' then 1 else 0).
Proof.
  intros Hi. pose proof (lookup_lt_Some _ _ _ Hi) as Hlt.
  rewrite insert_take_drop by exact Hlt.
  rewrite <- (take_drop_middle l i t Hi) at 3.
  rewrite !filter_app, !filter_cons, !length_app.
  destruct (P t) eqn:Ht, (P t') eqn:Ht';
    repeat (destruct (decide _) as [?|?]; try congruence); cbn [length]; lia.
Qed.

Section CacheFacts.
Variable opts : Options.
Variable import : Registry.Importer Factory.

Lemma callHooked_frame (s : string) (inner : Executor) (req : ReqRef) (w : World) :
  subgraphExecutorMap (callHooked opts s inner req w).1 = subgraphExecutorMap w
  /\ transportExecutorStack (callHooked opts s inner req w).1 = transportExecutorStack w
  /\ log (callHooked opts s inner req w).1 = log w
  /\ tasks (callHooked opts s inner req w).1 = tasks w.
Proof. unfold callHooked. destruct (executorWithHooks _ _ _). cbn. auto. Qed.

Lemma installExecutor_tasks (s : string) (req : ReqRef) (r : Res Executor) (w : World) :
  tasks (installExecutor opts s req r w).1 = tasks w.
Proof.
  unfold installExecutor. destruct r as [e|err]; [| reflexivity].
  destruct (registerDisposable _ e); [| reflexivity].
  now rewrite (proj2 (proj2 (proj2 (callHooked_frame _ _ _ _)))).
Qed.

Lemma installExecutor_factoryCalls (s n : string) (req : ReqRef) (r : Res Executor)
    (w : World) :
  factoryCalls n (installExecutor opts s req r w).1 = factoryCalls n w.
Proof.
  unfold installExecutor. destruct r as [e|err]; [| reflexivity].
  destruct (registerDisposable _ e); [| reflexivity].
  unfold factoryCalls. rewrite (proj1 (proj2 (proj2 (callHooked_frame _ _ _ _)))).
  cbn [log]. rewrite filter_app, length_app.
  rewrite filter_cons_False by (cbn; discriminate). cbn. lia.
Qed.

(** An initialisation that fails leaves the cache as it was. *)
Lemma installExecutor_failure (s : string) (req : ReqRef) (r : Res Executor) (w : World)
    (e : Error) :
  (r ≫= registerDisposable (transportExecutorStack w)) = Throw e ->
  installExecutor opts s req r w = (w, lift (Throw e)).
Proof.
  unfold installExecutor. destruct r as [ex|err].
  - rewrite Res_bind_Ok. now intros ->.
  - rewrite Res_bind_Throw. now intros [= ->].
Qed.

Lemma settled_not_pending (w : World) :
  all_settled w = true -> pendingTransport w = 0.
Proof.
  unfold all_settled, pendingTransport. induction (tasks w) as [|t ts IH]; [reflexivity |].
  cbn [forallb]. intros [Ht Hts]%andb_true_iff.
  rewrite filter_cons_False; [now apply IH |].
  unfold is_settled, awaits_transport in *. now destruct (task_state t).
Qed.

Section FirstCalls.
Variable s : string.

Lemma lazyExecutor_spec (req : ReqRef) (w : World) :
  tasks (lazyExecutor opts s req w)
    = tasks w ++ [{| task_subgraphName := s; task_request := req;
                     task_state := AwaitTransport (kindOf opts s) |}]
  /\ log (lazyExecutor opts s req w) = log w ++ [EvGetTransport (kindOf opts s)]
  /\ subgraphExecutorMap (lazyExecutor opts s req w) = subgraphExecutorMap w
  /\ transportExecutorStack (lazyExecutor opts s req w) = transportExecutorStack w.
Proof. unfold lazyExecutor. cbn. auto. Qed.

(** A call for a subgraph that is not initialised goes through the lazy
    executor: the placeholder is in the cache and the call waits for the
    factory getter. *)
Lemma onSubgraphExecute_first (req : ReqRef) (w : World) :
  notInitialised s w ->
  tasks (onSubgraphExecute opts s req w)
    = tasks w ++ [{| task_subgraphName := s; task_request := req;
                     task_state := AwaitTransport (kindOf opts s) |}]
  /\ log (onSubgraphExecute opts s req w) = log w ++ [EvGetTransport (kindOf opts s)]
  /\ subgraphExecutorMap (onSubgraphExecute opts s req w) !! s = Some LazyExecutor
  /\ transportExecutorStack (onSubgraphExecute opts s req w) = transportExecutorStack w.
Proof.
  intros [Hn|Hl]; unfold onSubgraphExecute.
  - rewrite Hn. cbn. repeat split. apply lookup_insert_eq.
  - rewrite Hl. cbn. repeat split. exact Hl.
Qed.

Lemma first_calls (reqs : list ReqRef) (w : World) (n : nat) :
  notInitialised s w ->
  onlyCallsTo opts s w ->
  length (tasks w) = n ->
  factoryCalls s w = 0 ->
  pendingTransport w = n ->
  let w' := run opts import (map (Call s) reqs) w in
  firstCallsInv opts s (n + length reqs) w'.
Proof.
  revert w n. induction reqs as [|req reqs IH]; intros w n Hni Hall Hlen Hf Hp.
  - cbn. unfold firstCallsInv. rewrite Nat.add_0_r. repeat split; [assumption .. | lia].
  - cbn [map run fold_left step length].
    destruct (onSubgraphExecute_first req w Hni) as (Ht & Hlog & Hc & _).
    replace (n + S (length reqs)) with (S n + length reqs) by lia.
    apply IH.
    + right. exact Hc.
    + unfold onlyCallsTo. rewrite Ht. apply Forall_app. split; [exact Hall |].
      constructor; [| constructor]. cbn. split; [reflexivity | now intros k [= <-]].
    + rewrite Ht, length_app. cbn. lia.
    + unfold factoryCalls in *. rewrite Hlog, filter_app, length_app, Hf. reflexivity.
    + unfold pendingTransport in *. rewrite Ht, filter_app, length_app, Hp.
      rewrite filter_cons_True by reflexivity. rewrite filter_nil. cbn [length]. lia.
Qed.

Variable factory : Factory.
Hypothesis getter_resolves :
  transportExecutorFactoryGetter opts import (kindOf opts s) = Ok (VFun factory).

Lemma onlyCallsTo_setTask (i : nat) (t t' : Task) (w : World) :
  onlyCallsTo opts s w ->
  task_subgraphName t' = s ->
  (forall kind, task_state t' <> AwaitTransport kind) ->
  onlyCallsTo opts s (setTask i t' w).
Proof.
  unfold onlyCallsTo. cbn [tasks setTask]. intros Hall Hn Hs.
  apply Forall_insert; [exact Hall |]. split; [exact Hn |].
  intros kind Hk. now elim (Hs kind).
Qed.

(** Resuming a call keeps the count: a call that waited for the factory
    getter has the factory called for it. *)
Lemma resume_keeps_inv (n i : nat) (w : World) :
  firstCallsInv opts s n w -> firstCallsInv opts s n (resume opts import i w).
Proof.
  intros (Hall & Hlen & Hcount). unfold resume.
  destruct (tasks w !! i) as [t|] eqn:Hi; [| now repeat split].
  pose proof (proj1 (Forall_lookup _ _) Hall i t Hi) as [Hname Hkind].
  destruct (task_state t) as [kind|r|r] eqn:Hstate.
  - rewrite (Hkind kind eq_refl), getter_resolves. cbn [callFactory].
    rewrite Hname.
    assert (Hpend : forall w0 t',
               tasks w0 = tasks w -> awaits_transport t' = false ->
               pendingTransport (setTask i t' w0) + 1 = pendingTransport w).
    { intros w0 t' Hw0 Ht'. unfold pendingTransport. cbn [tasks setTask]. rewrite Hw0.
      pose proof (filter_length_insert awaits_transport (tasks w) i t t' Hi) as H.
      assert (Hat : awaits_transport t = true)
        by (unfold awaits_transport; now rewrite Hstate).
      rewrite Hat, Ht' in H. lia. }
    assert (Hfc : factoryCalls s (addLog (EvFactory s) w) = factoryCalls s w + 1).
    { unfold factoryCalls. cbn [log addLog]. rewrite filter_app, length_app.
      rewrite filter_cons_True by (cbn; apply String.eqb_refl).
      rewrite filter_nil. reflexivity. }
    destruct (factory_async factory).
    + repeat split.
      * apply (onlyCallsTo_setTask i t); [exact Hall | reflexivity | discriminate].
      * cbn [tasks setTask addLog]. now rewrite length_insert.
      * specialize (Hpend (addLog (EvFactory s) w) _ eq_refl
                      (eq_refl : awaits_transport
                         {| task_subgraphName := s; task_request := task_request t;
                            task_state := AwaitExecutor
                              (factory_run factory (subgraphContext opts s)) |} = false)).
        change (factoryCalls s (setTask i _ (addLog (EvFactory s) w)))
          with (factoryCalls s (addLog (EvFactory s) w)).
        lia.
    + destruct (installExecutor opts s (task_request t) _ (addLog (EvFactory s) w))
        as [w' res] eqn:Hinst.
      pose proof (installExecutor_tasks s (task_request t)
                    (factory_run factory (subgraphContext opts s))
                    (addLog (EvFactory s) w)) as Htasks.
      pose proof (installExecutor_factoryCalls s s (task_request t)
                    (factory_run factory (subgraphContext opts s))
                    (addLog (EvFactory s) w)) as Hcalls.
      rewrite Hinst in Htasks, Hcalls. cbn [fst] in Htasks, Hcalls.
      cbn [tasks addLog] in Htasks.
      unfold settle. repeat split.
      * apply (onlyCallsTo_setTask i t); [| exact Hname | discriminate].
        unfold onlyCallsTo. now rewrite Htasks.
      * cbn [tasks setTask]. now rewrite length_insert, Htasks.
      * specialize (Hpend w' {| task_subgraphName := task_subgraphName t;
                                task_request := task_request t;
                                task_state := Settled res |} Htasks eq_refl).
        change (factoryCalls s (setTask i _ w')) with (factoryCalls s w').
        lia.
  - destruct (installExecutor opts (task_subgraphName t) (task_request t) r w)
      as [w' res] eqn:Hinst.
    pose proof (installExecutor_tasks (task_subgraphName t) (task_request t) r w) as Htasks.
    pose proof (installExecutor_factoryCalls (task_subgraphName t) s (task_request t) r w)
      as Hcalls.
    rewrite Hinst in Htasks, Hcalls. cbn [fst] in Htasks, Hcalls.
    unfold settle. repeat split.
    + apply (onlyCallsTo_setTask i t); [| exact Hname | discriminate].
      unfold onlyCallsTo. now rewrite Htasks.
    + cbn [tasks setTask]. now rewrite length_insert, Htasks.
    + change (factoryCalls s (setTask i _ w')) with (factoryCalls s w').
      unfold pendingTransport. cbn [tasks setTask]. rewrite Htasks.
      pose proof (filter_length_insert awaits_transport (tasks w) i t
                    {| task_subgraphName := task_subgraphName t;
                       task_request := task_request t;
                       task_state := Settled res |} Hi) as H.
      assert (Hat : awaits_transport t = false)
        by (unfold awaits_transport; now rewrite Hstate).
      rewrite Hat in H. cbn [awaits_transport task_state] in H.
      unfold pendingTransport in Hcount. lia.
  - now repeat split.
Qed.

Lemma resumes_keep_inv (n : nat) (schedule : list nat) (w : World) :
  firstCallsInv opts s n w ->
  firstCallsInv opts s n (run opts import (map Resume schedule) w).
Proof.
  revert w. induction schedule as [|i schedule IH]; intros w Hinv; [exact Hinv |].
  cbn [map run fold_left step]. apply IH. now apply resume_keeps_inv.
Qed.

(** C1 on the code: [N] calls for a subgraph made before any of them is
    resumed all go through the lazy placeholder, and however the event loop
    resumes them afterwards, once they have all settled the transport's
    factory has been called [N] times for that subgraph: once per call, not
    once. *)
Theorem concurrent_first_calls_call_factory_each (st : Store) (reqs : list ReqRef)
    (schedule : list nat) :
  let w := run opts import (map Resume schedule)
             (run opts import (map (Call s) reqs) (init st)) in
  all_settled w = true ->
  factoryCalls s w = length reqs.
Proof.
  intros w Hsettled.
  assert (Hinv : firstCallsInv opts s (length reqs) w).
  { apply resumes_keep_inv.
    apply (first_calls reqs (init st) 0); try reflexivity.
    - left. apply lookup_empty.
    - constructor. }
  destruct Hinv as (_ & _ & Hcount).
  rewrite (settled_not_pending w Hsettled) in Hcount. lia.
Qed.
End FirstCalls.

(** *** A failed initialisation *)

Lemma getTransportExecutor_Throw (s : string) (stack : DisposableStack) (e : Error) :
  getTransportExecutor opts import s stack = Throw e ->
  transportExecutorFactoryGetter opts import (kindOf opts s) = Throw e
  \/ exists g, transportExecutorFactoryGetter opts import (kindOf opts s) = Ok g
               /\ ((callFactory opts s g).2 ≫= registerDisposable stack) = Throw e.
Proof.
  unfold getTransportExecutor.
  destruct (transportExecutorFactoryGetter opts import (kindOf opts s)) as [g|e1].
  - rewrite Res_bind_Ok. intros H. right. exists g. split; [reflexivity |].
    destruct (callFactory opts s g).2 as [ex|e2].
    + unfold mbind, Res_bind in H |- *.
      destruct (registerDisposable stack ex); [discriminate | congruence].
    + unfold mbind, Res_bind in H |- *. congruence.
  - rewrite Res_bind_Throw. intros [= ->]. now left.
Qed.

Lemma settle_failedWith (s : string) (i : nat) (t : Task) (e : Error) (w1 w : World) :
  i < length (tasks w) ->
  subgraphExecutorMap w = subgraphExecutorMap w1 ->
  transportExecutorStack w = transportExecutorStack w1 ->
  length (tasks w) = length (tasks w1) ->
  getterCalls w = getterCalls w1 ->
  failedWith s i e w1 (settle i t (lift (Throw e)) w).
Proof.
  intros Hi Hc Hs Hl Hg. unfold failedWith, settle, resultOf.
  cbn [tasks setTask subgraphExecutorMap transportExecutorStack].
  rewrite list_lookup_insert_eq by exact Hi. cbn [task_state].
  rewrite length_insert. repeat split; assumption.
Qed.

Lemma resume_settled (i : nat) (w : World) (r : M Result) :
  resultOf i w = Some r -> resume opts import i w = w.
Proof.
  unfold resultOf, resume. destruct (tasks w !! i) as [t|]; [| discriminate].
  now destruct (task_state t).
Qed.

Lemma getterCalls_addLog_factory (s : string) (w : World) :
  getterCalls (addLog (EvFactory s) w) = getterCalls w.
Proof.
  unfold getterCalls. cbn [log addLog]. rewrite filter_app, length_app.
  rewrite filter_cons_False by (cbn; discriminate). cbn. lia.
Qed.

(** A call whose initialisation fails settles with the failure and leaves
    the cache as it found it, whether the factory answers at once or
    through a promise. *)
Lemma failed_call_settles (s : string) (i : nat) (t : Task) (e : Error) (w1 : World) :
  tasks w1 !! i = Some t ->
  task_subgraphName t = s ->
  task_state t = AwaitTransport (kindOf opts s) ->
  getTransportExecutor opts import s (transportExecutorStack w1) = Throw e ->
  failedWith s i e w1 (resume opts import i (resume opts import i w1)).
Proof.
  intros Hi Hname Hstate Hfail.
  pose proof (lookup_lt_Some _ _ _ Hi) as Hlt.
  assert (Hdone : forall w, failedWith s i e w1 w ->
                    failedWith s i e w1 (resume opts import i w)).
  { intros w Hw. now rewrite (resume_settled i w _ (proj1 Hw)). }
  unfold resume at 2. rewrite Hi, Hstate.
  apply getTransportExecutor_Throw in Hfail as [Hg | (g & Hg & Hr)]; rewrite Hg.
  - apply Hdone. now apply settle_failedWith.
  - rewrite Hname. destruct (callFactory opts s g) as [[factory|] r] eqn:Hcall;
      cbn [snd] in Hr.
    + destruct (factory_async factory).
      * unfold resume. cbn [tasks setTask addLog].
        rewrite list_lookup_insert_eq by exact Hlt.
        cbn [task_state task_subgraphName task_request].
        rewrite (installExecutor_failure _ _ _ _ e) by exact Hr.
        apply settle_failedWith.
        -- cbn [tasks setTask addLog]. now rewrite length_insert.
        -- reflexivity.
        -- reflexivity.
        -- cbn [tasks setTask addLog]. apply length_insert.
        -- apply (getterCalls_addLog_factory s w1).
      * rewrite (installExecutor_failure _ _ _ _ e) by exact Hr.
        apply Hdone. apply settle_failedWith; try reflexivity; [exact Hlt |].
        apply getterCalls_addLog_factory.
    + rewrite (installExecutor_failure _ _ _ _ e) by exact Hr.
      apply Hdone. now apply settle_failedWith.
Qed.

(** C2: when the initialisation of a subgraph's executor fails, in the
    factory getter, in the call of the factory or in the registration on the
    disposable stack, the call settles with that error, the cache still
    holds the lazy placeholder for the subgraph, and the next call for the
    subgraph goes through the placeholder again: it calls the factory getter
    anew. *)
Theorem failed_initialisation_is_retried (s : string) (req req' : ReqRef) (w : World)
    (e : Error) :
  notInitialised s w ->
  getTransportExecutor opts import s (transportExecutorStack w) = Throw e ->
  let i := length (tasks w) in
  let w' := resume opts import i (resume opts import i (onSubgraphExecute opts s req w)) in
  resultOf i w' = Some ([], Throw e)
  /\ subgraphExecutorMap w' !! s = Some LazyExecutor
  /\ (let w'' := onSubgraphExecute opts s req' w' in
      tasks w'' !! S i = Some {| task_subgraphName := s; task_request := req';
                                 task_state := AwaitTransport (kindOf opts s) |}
      /\ getterCalls w'' = S (getterCalls w')).
Proof.
  intros Hni Hfail i w'.
  destruct (onSubgraphExecute_first s req w Hni) as (Ht & Hlog & Hc & Hs).
  assert (Hfailed : failedWith s i e (onSubgraphExecute opts s req w) w').
  { apply (failed_call_settles s i
             {| task_subgraphName := s; task_request := req;
                task_state := AwaitTransport (kindOf opts s) |}).
    - rewrite Ht. now apply list_lookup_middle.
    - reflexivity.
    - reflexivity.
    - now rewrite Hs. }
  destruct Hfailed as (Hres & Hcache & Hstack & Hlen & Hget).
  assert (Hlazy : subgraphExecutorMap w' !! s = Some LazyExecutor) by now rewrite Hcache.
  split; [exact Hres | split; [exact Hlazy |]].
  destruct (onSubgraphExecute_first s req' w' (or_intror Hlazy)) as (Ht' & Hlog' & _ & _).
  cbn zeta. split.
  - rewrite Ht'. apply list_lookup_middle. rewrite Hlen, Ht, length_app. cbn. unfold i. lia.
  - unfold getterCalls. rewrite Hlog', filter_app, length_app.
    rewrite filter_cons_True by reflexivity. rewrite filter_nil. cbn [length]. lia.
Qed.

(** *** Keys of the cache *)

(** C6, as amended: [compareSubgraphNames] says whether the constant-case
    forms of two names are equal; the transport entry of a name is what the
    entry map holds under that very name, and the executor cache is keyed by
    the name as it is given, so a call for one name does not touch what the
    cache holds for another name, whatever their constant-case forms. *)
Theorem subgraph_names_are_keys_as_given (constantCase : string -> string)
    (name1 name2 : string) (req : ReqRef) (w : World) :
  (compareSubgraphNames constantCase name1 name2 = true
     <-> constantCase name1 = constantCase name2)
  /\ (forall m, rt_transportEntryMap opts = Some m ->
                transportEntryOf opts name1 = m !! name1)
  /\ (name1 <> name2 ->
      subgraphExecutorMap (onSubgraphExecute opts name1 req w) !! name2
        = subgraphExecutorMap w !! name2).
Proof.
  split; [apply String.eqb_eq | split].
  { intros m Hm. unfold transportEntryOf. now rewrite Hm. }
  intros Hne. unfold onSubgraphExecute.
  destruct (subgraphExecutorMap w !! name1) as [[|inner]|] eqn:Hc.
  - reflexivity.
  - destruct (callHooked opts name1 inner req w) as [w' r] eqn:Hh.
    cbn [subgraphExecutorMap addTask].
    pose proof (proj1 (callHooked_frame name1 inner req w)) as H.
    rewrite Hh in H. cbn [fst] in H. now rewrite H.
  - cbn. now apply lookup_insert_ne.
Qed.
End CacheFacts.

(** Scenario 1 of the specification: two calls for "a" in the same tick,
    then resumed in turn. *)
Lemma concurrent_first_calls_call_factory_each_witness :
  factoryCalls "a"
    (run Scenario.runtimeOptions Scenario.nothingInstalled (map Resume [0; 1; 0; 1])
       (run Scenario.runtimeOptions Scenario.nothingInstalled
          (map (Call "a") [1%positive; 2%positive]) (init Scenario.twoRequests)))
  = 2.
Proof.
  apply (concurrent_first_calls_call_factory_each Scenario.runtimeOptions
           Scenario.nothingInstalled "a" Scenario.slowFactory eq_refl
           Scenario.twoRequests [1%positive; 2%positive] [0; 1; 0; 1]).
  vm_compute. reflexivity.
Defined.

(** In that run both executors the factory made were registered on the
    disposable stack, and the cache was written once for each. *)
Example concurrent_first_calls_register_twice :
  let w := run Scenario.runtimeOptions Scenario.nothingInstalled
             [Call "a" 1%positive; Call "a" 2%positive;
              Resume 0; Resume 1; Resume 0; Resume 1]
             (init Scenario.twoRequests) in
  log w = [EvGetTransport "k"; EvGetTransport "k"; EvFactory "a"; EvFactory "a";
           EvCached "a" 4; EvCached "a" 4]
  /\ stack_resources (transportExecutorStack w) = [4; 4]
  /\ all_settled w = true.
Proof. vm_compute. repeat split. Qed.

(** Calls that do not overlap call the factory once. *)
Example sequential_calls_call_factory_once :
  factoryCalls "a"
    (run Scenario.runtimeOptions Scenario.nothingInstalled
       [Call "a" 1%positive; Resume 0; Resume 0; Call "a" 2%positive]
       (init Scenario.twoRequests))
  = 1.
Proof. vm_compute. reflexivity. Qed.

Lemma failed_initialisation_is_retried_witness :
  let w' := resume Scenario.ghostOptions Scenario.nothingInstalled 0
              (resume Scenario.ghostOptions Scenario.nothingInstalled 0
                 (onSubgraphExecute Scenario.ghostOptions "g" 1%positive
                    (init Scenario.oneRequest))) in
  resultOf 0 w' = Some ([], Throw (PlainError (Registry.notFoundMessage "ghost")))
  /\ subgraphExecutorMap w' !! "g" = Some LazyExecutor
  /\ (let w'' := onSubgraphExecute Scenario.ghostOptions "g" 1%positive w' in
      tasks w'' !! 1 = Some {| task_subgraphName := "g"; task_request := 1%positive;
                               task_state := AwaitTransport
                                 (kindOf Scenario.ghostOptions "g") |}
      /\ getterCalls w'' = S (getterCalls w')).
Proof.
  apply (failed_initialisation_is_retried Scenario.ghostOptions Scenario.nothingInstalled
           "g" 1%positive 1%positive (init Scenario.oneRequest)
           (PlainError (Registry.notFoundMessage "ghost"))).
  - left. vm_compute. reflexivity.
  - vm_compute. reflexivity.
Defined.

Lemma subgraph_names_are_keys_as_given_witness :
  subgraphExecutorMap
    (onSubgraphExecute Scenario.apiOptions "MyApi" 1%positive (init Scenario.twoRequests))
    !! "my_api"
  = subgraphExecutorMap (init Scenario.twoRequests) !! "my_api".
Proof.
  apply (proj2 (proj2 (subgraph_names_are_keys_as_given Scenario.apiOptions
                         ChangeCase.constantCase "MyApi" "my_api" 1%positive
                         (init Scenario.twoRequests)))).
  discriminate.
Defined.

(** C6, as stated, fails: "MyApi" and "my_api" have the same constant-case
    form, and yet once the executor of "MyApi" is cached, the cache holds
    nothing for "my_api", and a call for "my_api" does not find the
    transport entry registered as "MyApi": it fails for want of a
    transport. *)
Lemma lookups_do_not_normalise_names :
  compareSubgraphNames ChangeCase.constantCase "MyApi" "my_api" = true
  /\ (let w := run Scenario.apiOptions Scenario.nothingInstalled
                 [Call "MyApi" 1%positive; Resume 0; Resume 0]
                 (init Scenario.twoRequests) in
      subgraphExecutorMap w !! "MyApi" = Some (HookedExecutor Scenario.echo)
      /\ subgraphExecutorMap w !! "my_api" = None
      /\ resultOf 1
           (run Scenario.apiOptions Scenario.nothingInstalled
              [Call "my_api" 2%positive; Resume 1; Resume 1] w)
         = Some ([], Throw (PlainError (Registry.notFoundMessage "")))).
Proof. vm_compute. repeat split. Qed.


(** ** More on the lazy executor cache *)

Section CacheSteps.
Variable opts : Options.
Variable import : Registry.Importer Factory.

(** What a call does to the cache, the stack and the calls in flight. *)
Lemma onSubgraphExecute_frame (s : string) (req : ReqRef) (w : World) :
  (subgraphExecutorMap (onSubgraphExecute opts s req w) = subgraphExecutorMap w
   \/ (subgraphExecutorMap w !! s = None
       /\ subgraphExecutorMap (onSubgraphExecute opts s req w)
          = <[s := LazyExecutor]> (subgraphExecutorMap w)))
  /\ transportExecutorStack (onSubgraphExecute opts s req w) = transportExecutorStack w
  /\ exists t, tasks (onSubgraphExecute opts s req w) = tasks w ++ [t].
Proof.
  unfold onSubgraphExecute.
  destruct (subgraphExecutorMap w !! s) as [[|inner]|] eqn:Hc.
  - cbn. split; [now left | split; [reflexivity | eauto]].
  - destruct (callHooked opts s inner req w) as [w' r] eqn:Hh.
    pose proof (callHooked_frame opts s inner req w) as (H1 & H2 & _ & H4).
    rewrite Hh in H1, H2, H4. cbn [fst] in H1, H2, H4.
    cbn [subgraphExecutorMap transportExecutorStack tasks addTask].
    rewrite H4. split; [now left | split; [exact H2 | eauto]].
  - cbn. split; [right; now split | split; [reflexivity | eauto]].
Qed.

(** What the installation of an executor does to the cache and the stack. *)
Lemma installExecutor_frame (s : string) (req : ReqRef) (r : Res Executor) (w : World) :
  (subgraphExecutorMap (installExecutor opts s req r w).1 = subgraphExecutorMap w
   /\ transportExecutorStack (installExecutor opts s req r w).1 = transportExecutorStack w)
  \/ exists e stack',
       r = Ok e
       /\ registerDisposable (transportExecutorStack w) e = Ok stack'
       /\ subgraphExecutorMap (installExecutor opts s req r w).1
          = <[s := HookedExecutor e]> (subgraphExecutorMap w)
       /\ transportExecutorStack (installExecutor opts s req r w).1 = stack'.
Proof.
  unfold installExecutor. destruct r as [e|err]; [| now left].
  destruct (registerDisposable (transportExecutorStack w) e) as [stack'|err] eqn:Hreg;
    [| now left].
  right. exists e, stack'.
  match goal with |- context [callHooked opts s e req ?w0] =>
    pose proof (callHooked_frame opts s e req w0) as (H1 & H2 & _ & _) end.
  rewrite H1, H2. cbn. auto.
Qed.

(** Resuming a call changes the cache and the stack only by installing an
    executor. *)
Lemma resume_frame (i : nat) (w : World) :
  (subgraphExecutorMap (resume opts import i w) = subgraphExecutorMap w
   /\ transportExecutorStack (resume opts import i w) = transportExecutorStack w)
  \/ exists s e stack',
       registerDisposable (transportExecutorStack w) e = Ok stack'
       /\ subgraphExecutorMap (resume opts import i w)
          = <[s := HookedExecutor e]> (subgraphExecutorMap w)
       /\ transportExecutorStack (resume opts import i w) = stack'.
Proof.
  assert (Hinst : forall s req r w0 t,
            subgraphExecutorMap w0 = subgraphExecutorMap w ->
            transportExecutorStack w0 = transportExecutorStack w ->
            let w' := settle i t (installExecutor opts s req r w0).2
                        (installExecutor opts s req r w0).1 in
            (subgraphExecutorMap w' = subgraphExecutorMap w
             /\ transportExecutorStack w' = transportExecutorStack w)
            \/ exists s e stack',
                 registerDisposable (transportExecutorStack w) e = Ok stack'
                 /\ subgraphExecutorMap w' = <[s := HookedExecutor e]> (subgraphExecutorMap w)
                 /\ transportExecutorStack w' = stack').
  { intros s req r w0 t Hc Hs. cbn zeta.
    cbn [settle setTask subgraphExecutorMap transportExecutorStack].
    destruct (installExecutor_frame s req r w0) as [[H1 H2] | (e & stack' & _ & Hreg & H1 & H2)].
    - left. now rewrite H1, H2.
    - right. exists s, e, stack'. now rewrite H1, H2, <- Hc, <- Hs. }
  unfold resume. destruct (tasks w !! i) as [t|]; [| now left].
  destruct (task_state t) as [kind|r|r].
  - destruct (transportExecutorFactoryGetter opts import kind) as [g|e]; [| now left].
    destruct (callFactory opts (task_subgraphName t) g) as [[factory|] r].
    + destruct (factory_async factory); [now left |].
      destruct (installExecutor opts _ _ r (addLog _ w)) as [w' res] eqn:Hi.
      specialize (Hinst (task_subgraphName t) (task_request t) r
                    (addLog (EvFactory (task_subgraphName t)) w) t eq_refl eq_refl).
      now rewrite Hi in Hinst.
    + destruct (installExecutor opts _ _ r w) as [w' res] eqn:Hi.
      specialize (Hinst (task_subgraphName t) (task_request t) r w t eq_refl eq_refl).
      now rewrite Hi in Hinst.
  - destruct (installExecutor opts _ _ r w) as [w' res] eqn:Hi.
    specialize (Hinst (task_subgraphName t) (task_request t) r w t eq_refl eq_refl).
    now rewrite Hi in Hinst.
  - now left.
Qed.

End CacheSteps.

Section CacheExtras.
Variable opts : Options.
Variable import : Registry.Importer Factory.


Lemma getTransportExecutor_Ok (s : string) (stack stack' : DisposableStack) (e : Executor) :
  getTransportExecutor opts import s stack = Ok (stack', e) ->
  exists factory,
    transportExecutorFactoryGetter opts import (kindOf opts s) = Ok (VFun factory)
    /\ factory_run factory (subgraphContext opts s) = Ok e
    /\ registerDisposable stack e = Ok stack'.
Proof.
  unfold getTransportExecutor.
  destruct (transportExecutorFactoryGetter opts import (kindOf opts s)) as [g|e1];
    [| discriminate].
  rewrite Res_bind_Ok.
  destruct g as [| | | | |factory|]; cbn [callFactory snd];
    try (rewrite Res_bind_Throw; discriminate).
  destruct (factory_run factory _) as [e'|] eqn:Hrun; [| discriminate].
  unfold mbind, Res_bind, mret, Res_ret.
  destruct (registerDisposable stack e') as [st|] eqn:Hreg; [| discriminate].
  intros [= <- <-]. exists factory. auto.
Qed.

(** X2: a first call whose initialisation succeeds calls the factory once,
    leaves the executor the factory made in the cache, wrapped with the
    hooks, leaves the disposable stack as the registration left it, and
    settles with what the hooked executor returns for the request. *)
Theorem successful_first_call_caches (s : string) (req : ReqRef) (w : World)
    (stack' : DisposableStack) (e : Executor) :
  notInitialised s w ->
  getTransportExecutor opts import s (transportExecutorStack w) = Ok (stack', e) ->
  let i := length (tasks w) in
  let w' := resume opts import i (resume opts import i (onSubgraphExecute opts s req w)) in
  subgraphExecutorMap w' !! s = Some (HookedExecutor e)
  /\ transportExecutorStack w' = stack'
  /\ factoryCalls s w' = S (factoryCalls s w)
  /\ resultOf i w' = Some (executorWithHooks (wrapOptions opts s e) (store w) req).2.
Proof.
  intros Hni Hok i w'.
  apply getTransportExecutor_Ok in Hok as (factory & Hg & Hrun & Hreg).
  destruct (onSubgraphExecute_first opts s req w Hni) as (Ht & Hlog & Hc & Hs).
  remember (onSubgraphExecute opts s req w) as w1 eqn:Hw1.
  assert (Hstore : store w1 = store w).
  { subst w1. unfold onSubgraphExecute.
    destruct Hni as [Hn|Hl]; [rewrite Hn | rewrite Hl]; reflexivity. }
  assert (Hi : tasks w1 !! i
               = Some {| task_subgraphName := s; task_request := req;
                         task_state := AwaitTransport (kindOf opts s) |}).
  { rewrite Ht. now apply list_lookup_middle. }
  pose proof (lookup_lt_Some _ _ _ Hi) as Hlt.
  assert (Hfc : factoryCalls s w1 = factoryCalls s w).
  { unfold factoryCalls. rewrite Hlog, filter_app, length_app.
    rewrite filter_cons_False by (cbn; discriminate). cbn. lia. }
  (* what the installation leaves, from any world that agrees with [w1] *)
  assert (Hinst : forall w0,
            store w0 = store w1 ->
            transportExecutorStack w0 = transportExecutorStack w1 ->
            factoryCalls s w0 = S (factoryCalls s w1) ->
            i < length (tasks w0) ->
            let t := {| task_subgraphName := s; task_request := req;
                        task_state := AwaitTransport (kindOf opts s) |} in
            let wi := settle i t (installExecutor opts s req (Ok e) w0).2
                        (installExecutor opts s req (Ok e) w0).1 in
            subgraphExecutorMap wi !! s = Some (HookedExecutor e)
            /\ transportExecutorStack wi = stack'
            /\ factoryCalls s wi = S (factoryCalls s w)
            /\ resultOf i wi
               = Some (executorWithHooks (wrapOptions opts s e) (store w) req).2).
  { intros w0 Hst Hstk Hcalls Hlen. cbn zeta.
    pose proof (installExecutor_factoryCalls opts s s req (Ok e) w0) as Hf.
    pose proof (installExecutor_tasks opts s req (Ok e) w0) as Htk.
    unfold installExecutor in *. rewrite Hstk, Hs, Hreg in *.
    unfold callHooked in *. cbn [store] in *. rewrite Hst, Hstore in *.
    destruct (executorWithHooks (wrapOptions opts s e) (store w) req) as [st r].
    cbn [fst snd] in *. unfold settle, resultOf.
    cbn [tasks setTask subgraphExecutorMap transportExecutorStack] in *.
    rewrite list_lookup_insert_eq by exact Hlen. cbn [task_state].
    repeat split.
    - apply lookup_insert_eq.
    - change (factoryCalls s (setTask i _ ?x)) with (factoryCalls s x).
      rewrite Hf, Hcalls, Hfc. reflexivity. }
  assert (Hlogged : factoryCalls s (addLog (EvFactory s) w1) = S (factoryCalls s w1)).
  { unfold factoryCalls. cbn [log addLog]. rewrite filter_app, length_app.
    rewrite filter_cons_True by (cbn; apply String.eqb_refl).
    rewrite filter_nil. cbn. lia. }
  subst w'. remember (resume opts import i w1) as w2 eqn:Hw2.
  unfold resume in Hw2. rewrite Hi in Hw2.
  cbn [task_state task_subgraphName task_request] in Hw2.
  rewrite Hg in Hw2. cbn [callFactory] in Hw2. rewrite Hrun in Hw2.
  destruct (factory_async factory).
  - subst w2. unfold resume. cbn [tasks setTask addLog].
    rewrite list_lookup_insert_eq by exact Hlt.
    cbn [task_state task_subgraphName task_request].
    match goal with |- context [installExecutor opts s req (Ok e) ?w0] =>
      specialize (Hinst w0 eq_refl eq_refl Hlogged) end.
    cbn [tasks setTask addLog] in Hinst. rewrite length_insert in Hinst.
    specialize (Hinst Hlt). cbn zeta in Hinst.
    match goal with |- context [installExecutor opts s req (Ok e) ?w0] =>
      destruct (installExecutor opts s req (Ok e) w0) as [wi res] end.
    cbn [fst snd] in Hinst. unfold settle in *.
    cbn [task_subgraphName task_request] in *. exact Hinst.
  - specialize (Hinst (addLog (EvFactory s) w1) eq_refl eq_refl Hlogged Hlt).
    cbn zeta in Hinst.
    destruct (installExecutor opts s req (Ok e) (addLog (EvFactory s) w1)) as [wi res].
    cbn [fst snd] in Hinst. subst w2.
    rewrite (resume_settled opts import i _ _ (proj2 (proj2 (proj2 Hinst)))).
    exact Hinst.
Qed.
End CacheExtras.

Section CacheInvariants.
Variable opts : Options.
Variable import : Registry.Importer Factory.

Lemma registerDisposable_grows (stack stack' : DisposableStack) (e : Executor) :
  registerDisposable stack e = Ok stack' ->
  (forall x, x ∈ stack_resources stack -> x ∈ stack_resources stack')
  /\ (exec_disposable e = true -> exec_id e ∈ stack_resources stack').
Proof.
  unfold registerDisposable, stack_use.
  destruct (exec_disposable e).
  - destruct (stack_disposed stack); [discriminate |]. intros [= <-]. cbn. split.
    + intros x Hx. now apply list_elem_of_further.
    + intros _. apply list_elem_of_here.
  - intros [= <-]. split; [auto | discriminate].
Qed.

Lemma step_keeps_disposables (w : World) (a : Action) :
  disposablesRegistered w -> disposablesRegistered (step opts import w a).
Proof.
  intros Hinv. destruct a as [s req|i]; cbn [step].
  - destruct (onSubgraphExecute_frame opts s req w) as ([Hc | [Hnone Hc]] & Hs & _);
      intros s0 e0; rewrite Hc, Hs.
    + apply Hinv.
    + destruct (decide (s = s0)) as [->|Hne].
      * rewrite lookup_insert_eq. discriminate.
      * rewrite lookup_insert_ne by exact Hne. apply Hinv.
  - destruct (resume_frame opts import i w) as [[Hc Hs] | (s & e & stack' & Hreg & Hc & Hs)];
      intros s0 e0; rewrite Hc, Hs; [apply Hinv |].
    destruct (registerDisposable_grows _ _ _ Hreg) as [Hgrow Hin].
    destruct (decide (s = s0)) as [->|Hne].
    + rewrite lookup_insert_eq. intros [= <-]. exact Hin.
    + rewrite lookup_insert_ne by exact Hne. intros H1 H2. apply Hgrow.
      exact (Hinv s0 e0 H1 H2).
Qed.

(** X3: however calls are made and resumed, every disposable executor that
    is in the cache is on the disposable stack. *)
Theorem cached_disposables_are_registered (st : Store) (schedule : list Action) :
  disposablesRegistered (run opts import schedule (init st)).
Proof.
  assert (H : forall w, disposablesRegistered w ->
                disposablesRegistered (run opts import schedule w)).
  { induction schedule as [|a rest IH]; intros w Hw; [exact Hw |].
    cbn [run fold_left]. apply IH. now apply step_keeps_disposables. }
  apply H. intros s e Hc. cbn in Hc. now rewrite lookup_empty in Hc.
Qed.

Lemma step_keeps_hooked (w : World) (a : Action) (s : string) :
  (exists e, subgraphExecutorMap w !! s = Some (HookedExecutor e)) ->
  exists e, subgraphExecutorMap (step opts import w a) !! s = Some (HookedExecutor e).
Proof.
  intros [e He]. destruct a as [s1 req|i]; cbn [step].
  - destruct (onSubgraphExecute_frame opts s1 req w) as ([Hc | [Hnone Hc]] & _ & _);
      rewrite Hc; [eauto |].
    destruct (decide (s1 = s)) as [->|Hne]; [congruence |].
    rewrite lookup_insert_ne by exact Hne. eauto.
  - destruct (resume_frame opts import i w) as [[Hc _] | (s1 & e1 & stack' & _ & Hc & _)];
      rewrite Hc; [eauto |].
    destruct (decide (s1 = s)) as [->|Hne].
    + rewrite lookup_insert_eq. eauto.
    + rewrite lookup_insert_ne by exact Hne. eauto.
Qed.

(** X4: a subgraph whose hooked executor is cached stays that way: no call
    and no resumption puts the lazy placeholder back or removes the entry. *)
Theorem hooked_entries_stay_hooked (schedule : list Action) (w : World) (s : string)
    (e : Executor) :
  subgraphExecutorMap w !! s = Some (HookedExecutor e) ->
  exists e', subgraphExecutorMap (run opts import schedule w) !! s
             = Some (HookedExecutor e').
Proof.
  intros He.
  assert (H : forall w, (exists e, subgraphExecutorMap w !! s = Some (HookedExecutor e)) ->
                exists e', subgraphExecutorMap (run opts import schedule w) !! s
                           = Some (HookedExecutor e')).
  { induction schedule as [|a rest IH]; intros w0 Hw; [exact Hw |].
    cbn [run fold_left]. apply IH. now apply step_keeps_hooked. }
  apply H. eauto.
Qed.


End CacheInvariants.

(** ** More on the hook pipeline *)

Section PipelineExtras.
Variable opts : WrapExecuteWithHooksOptions.
Variable requestId : option string.
Variable logger : option Logger.

(** Without done hooks the logger plays no part in what follows the
    pre-hooks. *)
Lemma afterPreHooks_no_done (v : PreVars) :
  afterPreHooks logger [] v = (v, [EvExecute (exec_id v.2) v.1], exec_run v.2 v.1).
Proof.
  unfold afterPreHooks, mbind, Proc_bind, getP. cbn [length Nat.eqb].
  unfold invoke, mbind, Proc_bind, emitP, liftP. cbn [app]. reflexivity.
Qed.

Lemma callPreHook_silent (hook : OnSubgraphExecuteHook) (v : PreVars)
    (out : Res (option OnSubgraphExecuteDoneHook)) :
  (forall payload, pre_run hook payload = {| calls := []; outcome := out |}) ->
  callPreHook opts requestId logger hook v
    = (v, [EvPreHook (pre_id hook) v.1 (exec_id v.2)], out).
Proof.
  intros H. unfold callPreHook, mbind, Proc_bind, getP, emitP.
  rewrite call_hook_silent by now rewrite H. now rewrite H.
Qed.

Lemma iterateAsync_silent (hooks : list OnSubgraphExecuteHook)
    (dones : list OnSubgraphExecuteDoneHook) (v : PreVars) :
  (forall hook, hook ∈ hooks -> silent hook) ->
  iterateAsync hooks (callPreHook opts requestId logger) dones v
    = (v, map (fun hook => EvPreHook (pre_id hook) v.1 (exec_id v.2)) hooks, Ok dones).
Proof.
  revert dones. induction hooks as [|hook rest IH]; intros dones Hs; [reflexivity |].
  cbn [iterateAsync]. unfold mbind at 1. unfold Proc_bind.
  rewrite (callPreHook_silent hook v (Ok None)) by (apply Hs; apply list_elem_of_here).
  rewrite IH by (intros h Hh; apply Hs; now apply list_elem_of_further).
  reflexivity.
Qed.

End PipelineExtras.

(** X6: pre-hooks that only look (no setter call, no done hook returned)
    change nothing: whatever the logger, they are called one after the other
    in registration order with the original request and executor, then the
    original executor is called on the original request and its result, or
    its exception, is the caller's. *)
Theorem silent_hooks_are_transparent (opts : WrapExecuteWithHooksOptions) (st : Store)
    (r : ReqRef) :
  (forall hook, hook ∈ onSubgraphExecuteHooks opts -> silent hook) ->
  (executorWithHooks opts st r).2
    = (map (fun hook => EvPreHook (pre_id hook) r (exec_id (executor opts)))
         (onSubgraphExecuteHooks opts)
       ++ [EvExecute (exec_id (executor opts)) r],
       exec_run (executor opts) r).
Proof.
  intros Hs. unfold executorWithHooks. cbn [snd].
  destruct (onSubgraphExecuteHooks opts) as [|h hs] eqn:Hh; [reflexivity |].
  cbn [length Nat.eqb]. unfold runProc, mbind at 1. unfold Proc_bind.
  rewrite iterateAsync_silent by exact Hs.
  rewrite afterPreHooks_no_done. reflexivity.
Qed.


Section DoneHooks.
Variable l : Logger.

Lemma callDoneHook_logged (hook : OnSubgraphExecuteDoneHook) (currentResult : Result) :
  callDoneHook (Some l) hook currentResult
    = (rewriteDone hook currentResult, [EvDoneHook (done_id hook)],
       outcome (done_run hook currentResult)).
Proof.
  unfold callDoneHook, mbind, Proc_bind, getP, emitP.
  rewrite call_hook_logged. reflexivity.
Qed.

Lemma iterateAsync_done_logged (hooks : list OnSubgraphExecuteDoneHook)
    (results : list OnSubgraphExecuteDoneResult) (currentResult : Result) :
  (forall hook x, hook ∈ hooks -> exists d, outcome (done_run hook x) = Ok d) ->
  iterateAsync hooks (callDoneHook (Some l)) results currentResult
    = (afterDone hooks currentResult, doneTrace hooks,
       Ok (results ++ doneCollected hooks currentResult)).
Proof.
  revert results currentResult.
  induction hooks as [|hook rest IH]; intros results cur Hok.
  - cbn. now rewrite app_nil_r.
  - cbn [iterateAsync]. unfold mbind at 1. unfold Proc_bind.
    rewrite callDoneHook_logged.
    destruct (Hok hook cur (list_elem_of_here _ _)) as [d Hd]. rewrite Hd.
    rewrite IH by (intros h x Hh; apply Hok; now apply list_elem_of_further).
    cbn [doneCollected doneTrace afterDone fold_left]. rewrite Hd.
    destruct d as [d|]; [now rewrite <- app_assoc | reflexivity].
Qed.

(** X8: with a request logger and done hooks that return normally, the done
    hooks are called after the executor, one after the other in registration
    order, each with the result as the [setResult] calls of the hooks before
    it left it; the caller gets the result as the last of them left it (a
    stream among them wrapped for the observers the hooks returned). When
    the executor throws, no done hook is called. *)
Theorem done_hooks_rewrite_the_result (hook : OnSubgraphExecuteDoneHook)
    (rest : list OnSubgraphExecuteDoneHook) (v : PreVars) :
  (forall h x, h ∈ hook :: rest -> exists d, outcome (done_run h x) = Ok d) ->
  (forall r0, exec_run v.2 v.1 = Ok r0 ->
     afterPreHooks (Some l) (hook :: rest) v
       = (v, EvExecute (exec_id v.2) v.1 :: doneTrace (hook :: rest),
          Ok (finishResult (Some l) (afterDone (hook :: rest) r0)
                (doneCollected (hook :: rest) r0))))
  /\ (forall e, exec_run v.2 v.1 = Throw e ->
       afterPreHooks (Some l) (hook :: rest) v
         = (v, [EvExecute (exec_id v.2) v.1], Throw e)).
Proof.
  intros Hok. split.
  - intros r0 Hr. unfold afterPreHooks, mbind at 1. unfold Proc_bind, getP.
    cbn [length Nat.eqb]. unfold invoke, mbind, Proc_bind, emitP, liftP, withVars.
    rewrite Hr. rewrite iterateAsync_done_logged by exact Hok.
    unfold mret, Proc_ret. cbn [fst snd app]. now rewrite app_nil_r.
  - intros e Hr. unfold afterPreHooks, mbind at 1. unfold Proc_bind, getP.
    cbn [length Nat.eqb]. unfold invoke, mbind, Proc_bind, emitP, liftP.
    now rewrite Hr.
Qed.
End DoneHooks.

(** *** The store the wrapper leaves *)

Lemma requestIdOf_attach (st : Store) (r : ReqRef) :
  requestIdOf (attachExecutionRequest st r) r = requestIdOf st r.
Proof.
  unfold requestIdOf, attachExecutionRequest.
  destruct (requests st !! r) as [req|] eqn:Hr; [| now rewrite ?Hr].
  destruct (req_info req); cbn [requests requestIdByRequest]; [now rewrite ?Hr |].
  rewrite lookup_insert_eq. reflexivity.
Qed.

Lemma attach_setExecReqLogger (st : Store) (r r' : ReqRef) (l : option Logger) :
  attachExecutionRequest (setExecReqLogger st r' l) r
    = setExecReqLogger (attachExecutionRequest st r) r' l.
Proof.
  destruct l as [l|]; [| reflexivity].
  unfold attachExecutionRequest, setExecReqLogger. cbn [requests infos].
  destruct (requests st !! r) as [req|]; [| reflexivity].
  destruct (req_info req); reflexivity.
Qed.

Lemma requestIdOf_setExecReqLogger (st : Store) (r r' : ReqRef) (l : option Logger) :
  requestIdOf (setExecReqLogger st r' l) r = requestIdOf st r.
Proof. destruct l; reflexivity. Qed.

Lemma attachExecutionRequest_idempotent (st : Store) (r : ReqRef) :
  attachExecutionRequest (attachExecutionRequest st r) r = attachExecutionRequest st r.
Proof.
  remember (attachExecutionRequest st r) as st1 eqn:E.
  unfold attachExecutionRequest in E.
  destruct (requests st !! r) as [req|] eqn:Hr.
  - destruct (req_info req) as [i|] eqn:Hi; subst st1; unfold attachExecutionRequest;
      cbn [requests infos requestIdByRequest loggerForExecutionRequest].
    + rewrite Hr, Hi. f_equal.
      rewrite alter_alter_eq. apply alter_ext. reflexivity.
    + rewrite lookup_insert_eq. cbn [req_info].
      f_equal. rewrite alter_insert_eq. reflexivity.
  - subst st1. unfold attachExecutionRequest. now rewrite Hr.
Qed.

(** X9: when the transport context has a logger with a [child] method, the
    wrapper records the request logger for the request: the logger's child
    for the subgraph name, and below it the child for the request id when
    the HTTP request of the context has a (non-empty) id. The loggers
    recorded for other requests stay. *)
Theorem request_logger_is_recorded (opts : WrapExecuteWithHooksOptions) (st : Store)
    (r : ReqRef) (l : Logger) :
  transportContext opts ≫= ctx_logger = Some l ->
  logger_has_child l = true ->
  (exists execReqLogger,
     loggerForExecutionRequest (executorWithHooks opts st r).1 !! r = Some execReqLogger
     /\ logger_prefix execReqLogger
         = logger_prefix l ++ subgraphName opts ::
             match requestIdOf st r with
             | Some requestId => if String.eqb requestId "" then [] else [requestId]
             | None => []
             end)
  /\ (forall r', r' <> r ->
       loggerForExecutionRequest (executorWithHooks opts st r).1 !! r'
         = loggerForExecutionRequest st !! r').
Proof.
  intros Hl Hchild. unfold executorWithHooks. cbn [fst].
  rewrite requestIdOf_attach. unfold execReqLoggerOf. rewrite Hl. cbn [mbind option_bind].
  unfold logger_child. rewrite Hchild.
  assert (Hkeep : loggerForExecutionRequest (attachExecutionRequest st r)
                  = loggerForExecutionRequest st).
  { unfold attachExecutionRequest. destruct (requests st !! r) as [req|]; [| reflexivity].
    destruct (req_info req); reflexivity. }
  destruct (requestIdOf st r) as [requestId|]; [destruct (String.eqb requestId "") |];
    cbn [setExecReqLogger loggerForExecutionRequest]; rewrite Hkeep;
    (split; [eexists; split; [apply lookup_insert_eq |]
            | intros r' Hr'; now rewrite lookup_insert_ne by congruence]);
    cbn [child_logger logger_prefix]; rewrite <- ?app_assoc; reflexivity.
Qed.

(** X10: the wrapper's writes to the objects it reaches are idempotent:
    applied a second time to the same request, it leaves the store (the
    request, its info object, the recorded logger) as the first application
    left it; in particular no second info object is made. *)
Theorem executorWithHooks_store_is_idempotent (opts : WrapExecuteWithHooksOptions)
    (st : Store) (r : ReqRef) :
  (executorWithHooks opts (executorWithHooks opts st r).1 r).1
    = (executorWithHooks opts st r).1.
Proof.
  unfold executorWithHooks. cbn [fst].
  rewrite attach_setExecReqLogger, requestIdOf_setExecReqLogger.
  rewrite attachExecutionRequest_idempotent, requestIdOf_attach.
  destruct (execReqLoggerOf opts (requestIdOf st r)) as [lg|]; [| reflexivity].
  unfold setExecReqLogger. cbn [requests infos requestIdByRequest loggerForExecutionRequest].
  f_equal. apply insert_insert_eq.
Qed.

(** ** More on the transport registry *)

(** X11: on the discovery path (nothing usable registered inline for the
    kind) [getTransport] returns a value only when a logger was given, the
    module was imported, and the member picked from it is callable: what it
    returns there is always a function. *)
Theorem discovered_factory_is_callable {F : Type} (transports : Registry.Transports F)
    (logger : option Logger) (import : Registry.Importer F) (kind : string)
    (v g : JSVal F) :
  Registry.inlineTransport transports kind = Ok v ->
  truthy v = false ->
  Registry.getTransport transports logger import kind = Ok g ->
  is_function g = true
  /\ is_Some logger
  /\ exists module, import (Registry.moduleName kind) = Some module
       /\ Registry.pickGetSubgraphExecutor (VObj module) = Ok g.
Proof.
  intros Hv Hf. unfold Registry.getTransport. rewrite Hv, Res_bind_Ok, Hf.
  destruct logger as [l|]; [| discriminate]. rewrite Res_bind_Ok.
  destruct (import (Registry.moduleName kind)) as [module|].
  - destruct (Registry.pickGetSubgraphExecutor (VObj module)) as [g'|e] eqn:Hg;
      [| discriminate].
    rewrite Res_bind_Ok.
    destruct (truthy g'); [| discriminate]. cbn [negb].
    destruct (is_function g') eqn:Hfun; [| discriminate]. cbn [negb].
    intros [= <-]. split; [exact Hfun |]. split; [now eexists |].
    exists module. now split.
  - unfold mbind, Res_bind. destruct (log_call _ _); discriminate.
Qed.

(** X12: a module object registered inline that has a [default] member is
    read through that member only: its own [getSubgraphExecutor], if it has
    one, is ignored, no logger is needed and nothing is imported. *)
Theorem default_member_takes_precedence {F : Type} (m : gmap string (JSVal F))
    (logger : option Logger) (import : Registry.Importer F) (kind : string)
    (props : list (string * JSVal F)) (dflt : JSVal F) :
  m !! kind = Some (VObj props) ->
  assoc "default" props = Some dflt ->
  Registry.getTransport (Registry.TransportsMap m) logger import kind
    = js_get dflt "getSubgraphExecutor".
Proof.
  intros Hm Hd.
  rewrite (getTransport_inline _ logger import kind (VObj props))
    by (cbn [Registry.inlineTransport truthy]; now rewrite ?Hm).
  unfold Registry.pickGetSubgraphExecutor, js_in. rewrite Hd.
  rewrite bool_decide_eq_true_2 by now eexists.
  rewrite Res_bind_Ok. cbn [js_get]. rewrite Hd. cbn [default].
  now rewrite Res_bind_Ok.
Qed.

(** ** More on comparing schemas *)

Section CompareSchemasExtras.
Context {DocumentNode : Type}.
Variable print : DocumentNode -> string.
Variable printSchemaWithDirectives : GraphQLSchema -> string.

(** X13: [compareSchemas] is an equivalence on its inputs, across the three
    kinds of input, and a document or a schema compares equal to its own
    printed text given as a string. *)
Theorem compareSchemas_is_an_equivalence :
  (forall a : SchemaInput DocumentNode,
     compareSchemas print printSchemaWithDirectives a a = true)
  /\ (forall a b : SchemaInput DocumentNode,
       compareSchemas print printSchemaWithDirectives a b
         = compareSchemas print printSchemaWithDirectives b a)
  /\ (forall a b c : SchemaInput DocumentNode,
       compareSchemas print printSchemaWithDirectives a b = true ->
       compareSchemas print printSchemaWithDirectives b c = true ->
       compareSchemas print printSchemaWithDirectives a c = true)
  /\ (forall doc, compareSchemas print printSchemaWithDirectives
                    (InDocument doc) (InString (print doc)) = true)
  /\ (forall schema, compareSchemas print printSchemaWithDirectives
                       (InSchema schema) (InString (printSchemaWithDirectives schema))
                     = true).
Proof.
  unfold compareSchemas. repeat split.
  - intros a. apply String.eqb_refl.
  - intros a b. apply String.eqb_sym.
  - intros a b c Hab Hbc. apply String.eqb_eq in Hab, Hbc. apply String.eqb_eq. congruence.
  - intros doc. apply String.eqb_refl.
  - intros schema. apply String.eqb_refl.
Qed.
End CompareSchemasExtras.

(** ** More on the merger *)

Section MergerExtras.
Variable printSchemaWithDirectives : GraphQLSchema -> string.
Variable federationToStitchingSDL : string -> string.
Variable buildSchema : string -> GraphQLSchema.
Variable addResolversToSchema : GraphQLSchema -> list string -> GraphQLSchema.
Variable stitchingDirectivesTransformer : Merger.RawSource -> option string.
Variable stitchSchemas : list Merger.RawSource -> Res GraphQLSchema.
Variable getWithSet : string -> Merger.MM GraphQLSchema -> Merger.MM GraphQLSchema.
Variable logger : Logger.

Let prepareOne := Merger.prepareSource printSchemaWithDirectives federationToStitchingSDL
                    buildSchema addResolversToSchema stitchingDirectivesTransformer
                    getWithSet logger.
Let prepare := Merger.prepareSources printSchemaWithDirectives federationToStitchingSDL
                 buildSchema addResolversToSchema stitchingDirectivesTransformer
                 getWithSet logger.
Let merge := Merger.getUnifiedSchema printSchemaWithDirectives federationToStitchingSDL
               buildSchema addResolversToSchema stitchingDirectivesTransformer
               stitchSchemas getWithSet logger.

Lemma prepareSource_plain (rawSource : Merger.RawSource) :
  Merger.isFederatedSchema (Merger.source_schema rawSource) = false ->
  exists prepared,
    prepareOne rawSource = ([], Ok prepared)
    /\ Merger.source_name prepared = Merger.source_name rawSource
    /\ Merger.source_schema prepared = Merger.source_schema rawSource
    /\ Merger.source_batch prepared
         = Some (default true (Merger.source_batch rawSource)).
Proof.
  intros Hfed. unfold prepareOne, Merger.prepareSource. rewrite Hfed.
  eexists. split; [reflexivity |]. cbn.
  repeat split. now destruct (Merger.source_batch rawSource).
Qed.

(** X14: sources without federation metadata go through the merger without
    any effect: no log line for them, their executors are not called, the
    store is not consulted. Each is handed to the stitcher with its name and
    schema as they were, in the order given, and with batching switched on
    unless the source said otherwise. *)
Theorem plain_sources_are_left_alone (rawSources : list Merger.RawSource) :
  Forall (fun rawSource =>
            Merger.isFederatedSchema (Merger.source_schema rawSource) = false) rawSources ->
  exists prepared,
    prepare rawSources = ([], Ok prepared)
    /\ map Merger.source_name prepared = map Merger.source_name rawSources
    /\ map Merger.source_schema prepared = map Merger.source_schema rawSources
    /\ map Merger.source_batch prepared
         = map (fun rawSource => Some (default true (Merger.source_batch rawSource)))
             rawSources
    /\ (merge rawSources).2
         = stitchSchemas prepared.
Proof.
  intros Hall.
  assert (H : exists prepared,
    prepare rawSources = ([], Ok prepared)
    /\ map Merger.source_name prepared = map Merger.source_name rawSources
    /\ map Merger.source_schema prepared = map Merger.source_schema rawSources
    /\ map Merger.source_batch prepared
         = map (fun rawSource => Some (default true (Merger.source_batch rawSource)))
             rawSources).
  { induction Hall as [|rawSource rest Hfed _ IH].
    - exists []. repeat split.
    - destruct IH as (others & Hrest & Hn & Hs & Hb).
      destruct (prepareSource_plain rawSource Hfed) as (p & Hp & Hpn & Hps & Hpb).
      exists (p :: others). unfold prepare in *. cbn [Merger.prepareSources].
      fold prepareOne. rewrite Hp, MM_bind_Ok, Hrest. cbn [map].
      rewrite Hn, Hs, Hb, Hpn, Hps, Hpb. repeat split. }
  destruct H as (prepared & Hp & Hn & Hs & Hb).
  exists prepared. repeat split; try assumption.
  unfold merge, Merger.getUnifiedSchema. fold prepare. rewrite Hp.
  unfold Merger.tell, Merger.liftMM, mbind, Merger.MM_bind.
  now destruct (stitchSchemas prepared).
Qed.



(** X17: whatever the sources are, a merge that prepares them all hands
    them to the stitcher under the names they came with, in the order they
    came in. *)
Theorem prepared_sources_keep_names_and_order (rawSources prepared : list Merger.RawSource)
    (evs : list Merger.MergerEvent) :
  prepare rawSources = (evs, Ok prepared) ->
  map Merger.source_name prepared = map Merger.source_name rawSources.
Proof.
  revert prepared evs. induction rawSources as [|rawSource rest IH]; intros prepared evs.
  - cbn. now intros [= _ <-].
  - unfold prepare in *. cbn [Merger.prepareSources]. fold prepareOne.
    destruct (prepareOne rawSource) as [evs1 [p|e]] eqn:Hp; [| discriminate].
    rewrite MM_bind_Ok.
    destruct (Merger.prepareSources _ _ _ _ _ _ _ rest) as [evs2 [others|e]] eqn:Hr;
      [| discriminate].
    cbn. intros [= _ <-]. cbn [map]. rewrite (IH others evs2 eq_refl). f_equal.
    unfold prepareOne, Merger.prepareSource in Hp.
    destruct (Merger.isFederatedSchema (Merger.source_schema rawSource)).
    + unfold Merger.tell, mbind, Merger.MM_bind in Hp.
      destruct (Merger.replaceFederationSDLWithStitchingSDL _ _ _ _ _ _ _ _ _)
        as [evs3 [sch|e]]; cbn in Hp; [| discriminate].
      injection Hp as _ <-. reflexivity.
    + cbn in Hp. injection Hp as _ <-. reflexivity.
Qed.
End MergerExtras.

(** ** The source map *)

Lemma SourceMap_get_absent (subschemaMap : SourceMap.SubschemaMap) (name : string) :
  name ∉ subschemaMap.*1 -> SourceMap.get subschemaMap name = None.
Proof.
  induction subschemaMap as [|[n s] rest IH]; [reflexivity |].
  cbn [fmap list_fmap fst SourceMap.get]. intros Hn.
  apply not_elem_of_cons in Hn as [Hne Hrest].
  destruct (String.eqb_spec n name) as [->|_]; [contradiction | now apply IH].
Qed.

(** X18: the source map attached to the unified schema answers [get] with
    the transformed schema of the first subschema that has the source's
    name, with undefined when there is none; every other member of it is a
    function that throws "Not Implemented". *)
Theorem sourceMap_answers_get_only (subschemaMap : SourceMap.SubschemaMap) :
  (forall before after name transformedSchema,
     subschemaMap = before ++ (name, transformedSchema) :: after ->
     name ∉ before.*1 ->
     SourceMap.call subschemaMap "get" name = Ok (Some transformedSchema))
  /\ (forall name, name ∉ subschemaMap.*1 ->
       SourceMap.call subschemaMap "get" name = Ok None)
  /\ (forall pKey name, pKey <> "get" ->
       SourceMap.call subschemaMap pKey name = Throw (PlainError "Not Implemented")).
Proof.
  split; [| split].
  - intros before after name s -> Hn. unfold SourceMap.call. cbn [String.eqb Ascii.eqb Bool.eqb].
    f_equal. induction before as [|[n' s'] before IH].
    + cbn. now rewrite String.eqb_refl.
    + cbn [app SourceMap.get]. cbn [fmap list_fmap fst] in Hn.
      apply not_elem_of_cons in Hn as [Hne Hrest].
      destruct (String.eqb_spec n' name) as [->|_]; [contradiction | now apply IH].
  - intros name Hn. unfold SourceMap.call. cbn [String.eqb Ascii.eqb Bool.eqb].
    f_equal. now apply SourceMap_get_absent.
  - intros pKey name Hne. unfold SourceMap.call.
    destruct (String.eqb_spec pKey "get") as [->|_]; [contradiction | reflexivity].
Qed.

(** ** Serving *)

(** X19: the port is that of the command line when it gives one, else that
    of the serve configuration, else that of the environment, else 4000; a
    port of 0 counts as not given, so the port selected is never 0. *)
Theorem port_sources_are_ranked (cli config env : option Z) :
  let port := (Serve.portSelectorFn (cli, config, env)).1 in
  port <> 0%Z
  /\ (forall p, cli = Some p -> p <> 0%Z -> port = p)
  /\ (Serve.numTruthy cli = false ->
       forall p, config = Some p -> p <> 0%Z -> port = p)
  /\ (Serve.numTruthy cli = false -> Serve.numTruthy config = false ->
       forall p, env = Some p -> p <> 0%Z -> port = p)
  /\ (Serve.numTruthy cli = false -> Serve.numTruthy config = false ->
       Serve.numTruthy env = false -> port = 4000%Z).
Proof.
  cbn [Serve.portSelectorFn fst List.find].
  assert (Ht : forall n p, n = Some p -> p <> 0%Z -> Serve.numTruthy n = true).
  { intros n p -> Hp. cbn. now apply negb_true_iff, Z.eqb_neq. }
  assert (Hnz : forall n, Serve.numTruthy n = true -> exists p, n = Some p /\ p <> 0%Z).
  { intros [z|]; cbn; [| discriminate]. intros H%negb_true_iff%Z.eqb_neq. now exists z. }
  split; [| split; [| split; [| split]]].
  - destruct (Serve.numTruthy cli) eqn:H1.
    { now destruct (Hnz _ H1) as (p & -> & Hp). }
    destruct (Serve.numTruthy config) eqn:H2.
    { now destruct (Hnz _ H2) as (p & -> & Hp). }
    destruct (Serve.numTruthy env) eqn:H3.
    { now destruct (Hnz _ H3) as (p & -> & Hp). }
    discriminate.
  - intros p -> Hp. now rewrite (Ht _ p eq_refl Hp).
  - intros -> p -> Hp. now rewrite (Ht _ p eq_refl Hp).
  - intros -> -> p -> Hp. now rewrite (Ht _ p eq_refl Hp).
  - now intros -> -> ->.
Qed.

(** X20: a warning is logged exactly when two or more of the three sources
    give a port (also when they give the same one); it names the port
    selected and lists the sources that gave one, and only those. *)
Theorem port_conflicts_are_warned (cli config env : option Z) :
  let given := List.filter Serve.numTruthy [cli; config; env] in
  let selected := Serve.portSelectorFn (cli, config, env) in
  (is_Some selected.2 <-> (2 <= length given)%nat)
  /\ (forall warning, selected.2 = Some warning ->
       Serve.warn_port warning = selected.1
       /\ length (Serve.warn_activeSources warning) = length given
       /\ ("CLI" ∈ Serve.warn_activeSources warning <-> Serve.numTruthy cli = true)
       /\ ("serve configuration" ∈ Serve.warn_activeSources warning
             <-> Serve.numTruthy config = true)
       /\ ("environment variable" ∈ Serve.warn_activeSources warning
             <-> Serve.numTruthy env = true)).
Proof.
  cbn [Serve.portSelectorFn fst snd List.filter].
  destruct (Serve.numTruthy cli), (Serve.numTruthy config), (Serve.numTruthy env);
    cbn [length Nat.ltb Nat.leb app]; (split; [split |]).
  all: try (intros _; cbn; lia).
  all: try (intros _; now eexists).
  all: try (intros [w Hw]; discriminate).
  all: try (intros H; cbn in H; lia).
  all: try (intros w [= <-]; cbn [Serve.warn_port Serve.warn_activeSources length];
            repeat split; intros; try reflexivity; try discriminate;
            repeat (apply elem_of_cons; first [left; reflexivity | right]);
            repeat match goal with
                   | H : _ ∈ _ :: _ |- _ =>
                       apply elem_of_cons in H as [H | H]; [discriminate |]
                   | H : _ ∈ [] |- _ => now apply elem_of_nil in H
                   end).
  all: intros w Hw; discriminate.
Qed.

Section ForkFacts.
Variable parseInt : string -> option Z.
Variable cpus : Z.

(** X21: a worker process never forks; [FORK] of the environment decides
    alone when it is set, whatever the serve configuration says, and its
    values [false] and [0] switch forking off; the number of workers forked
    is never negative, and with [fork: true] in the configuration and no
    [FORK] a primary process forks one worker per CPU. *)
Theorem fork_decisions :
  (forall envFork configFork,
     Serve.workersForked parseInt cpus true envFork configFork = 0%Z)
  /\ (forall isWorker e configFork configFork',
       Serve.workersForked parseInt cpus isWorker (Some e) configFork
         = Serve.workersForked parseInt cpus isWorker (Some e) configFork')
  /\ (forall isWorker configFork,
       Serve.workersForked parseInt cpus isWorker (Some "false") configFork = 0%Z
       /\ Serve.workersForked parseInt cpus isWorker (Some "0") configFork = 0%Z)
  /\ (forall isWorker envFork configFork,
       (0 <= Serve.workersForked parseInt cpus isWorker envFork configFork)%Z)
  /\ ((0 < cpus)%Z ->
       Serve.workersForked parseInt cpus false None (Some (Serve.ForkBool true)) = cpus).
Proof.
  split; [| split; [| split; [| split]]].
  - reflexivity.
  - reflexivity.
  - intros isWorker configFork. unfold Serve.workersForked, Serve.forks.
    cbn. now destruct isWorker.
  - intros isWorker envFork configFork. unfold Serve.workersForked, Serve.forks.
    destruct (Serve.forkNumOf parseInt cpus envFork configFork) as [n|];
      destruct isWorker; cbn; try lia.
    destruct (0 <? n)%Z eqn:Hn; [apply Z.ltb_lt in Hn |]; cbn; lia.
  - intros Hc. unfold Serve.workersForked, Serve.forks. cbn.
    now rewrite (proj2 (Z.ltb_lt 0 cpus) Hc).
Qed.
End ForkFacts.

Section HeaderFacts.
Variable toLowerCase : string -> string.

Lemma mergeHeader_keeps (headers : gmap string string) (entry : string * string)
    (k v : string) :
  headers !! k = Some v -> Serve.mergeHeader toLowerCase headers entry !! k = Some v.
Proof.
  intros Hk. unfold Serve.mergeHeader.
  destruct (headers !! toLowerCase entry.1) eqn:He; [exact Hk |].
  rewrite lookup_insert_ne; [exact Hk | congruence].
Qed.

Lemma fold_mergeHeader_keeps (entries : list (string * string))
    (headers : gmap string string) (k v : string) :
  headers !! k = Some v ->
  fold_left (Serve.mergeHeader toLowerCase) entries headers !! k = Some v.
Proof.
  revert headers. induction entries as [|entry rest IH]; intros headers Hk; [exact Hk |].
  cbn [fold_left]. apply IH. now apply mergeHeader_keeps.
Qed.

Lemma fold_mergeHeader_origin (entries : list (string * string))
    (headers : gmap string string) (k v : string) :
  fold_left (Serve.mergeHeader toLowerCase) entries headers !! k = Some v ->
  headers !! k = Some v
  \/ exists key, (key, v) ∈ entries /\ k = toLowerCase key.
Proof.
  revert headers. induction entries as [|[key value] rest IH]; intros headers Hk.
  - now left.
  - cbn [fold_left] in Hk. destruct (IH _ Hk) as [H | (key' & Hin & ->)].
    + unfold Serve.mergeHeader in H. cbn [fst snd] in H.
      destruct (headers !! toLowerCase key) eqn:He; [now left |].
      destruct (decide (toLowerCase key = k)) as [<-|Hne].
      * rewrite lookup_insert_eq in H. injection H as <-.
        right. exists key. split; [apply list_elem_of_here | reflexivity].
      * rewrite lookup_insert_ne in H by exact Hne. now left.
    + right. exists key'. split; [now apply list_elem_of_further | reflexivity].
Qed.

Lemma fold_mergeHeader_covers (entries : list (string * string))
    (headers : gmap string string) (key value : string) :
  (key, value) ∈ entries ->
  is_Some (fold_left (Serve.mergeHeader toLowerCase) entries headers !! toLowerCase key).
Proof.
  revert headers. induction entries as [|entry rest IH]; intros headers Hin.
  - now apply elem_of_nil in Hin.
  - cbn [fold_left]. apply elem_of_cons in Hin as [<- | Hin]; [| now apply IH].
    assert (H : is_Some (Serve.mergeHeader toLowerCase headers (key, value)
                           !! toLowerCase key)).
    { unfold Serve.mergeHeader. cbn [fst snd].
      destruct (headers !! toLowerCase key) eqn:He; [now rewrite He |].
      rewrite lookup_insert_eq. now eexists. }
    destruct H as [v Hv]. exists v. now apply fold_mergeHeader_keeps.
Qed.

Lemma fold_mergeHeader_id (entries : list (string * string))
    (headers : gmap string string) :
  (forall key value, (key, value) ∈ entries -> is_Some (headers !! toLowerCase key)) ->
  fold_left (Serve.mergeHeader toLowerCase) entries headers = headers.
Proof.
  induction entries as [|[key value] rest IH]; intros Hall; [reflexivity |].
  cbn [fold_left]. unfold Serve.mergeHeader at 2. cbn [fst snd].
  destruct (Hall key value (list_elem_of_here _ _)) as [v ->].
  apply IH. intros k' v' Hin. apply (Hall k' v'). now apply list_elem_of_further.
Qed.

(** X22: the headers of the connection parameters never replace a header
    of the upgrade request: every header the request had keeps its value.
    What is added comes from an entry of the connection parameters, under
    the lower-case form of its name; and running the merge again changes
    nothing. *)
Theorem upgrade_headers_are_never_overwritten
    (connectionHeaders : option (list (string * string)))
    (headers : gmap string string) :
  let merged := Serve.mergeConnectionHeaders toLowerCase connectionHeaders headers in
  (forall k v, headers !! k = Some v -> merged !! k = Some v)
  /\ (forall k v, merged !! k = Some v ->
       headers !! k = Some v
       \/ exists key, (key, v) ∈ default [] connectionHeaders /\ k = toLowerCase key)
  /\ (forall key value, (key, value) ∈ default [] connectionHeaders ->
       is_Some (merged !! toLowerCase key))
  /\ Serve.mergeConnectionHeaders toLowerCase connectionHeaders merged = merged.
Proof.
  unfold Serve.mergeConnectionHeaders. cbn zeta.
  split; [| split; [| split]].
  - intros k v. apply fold_mergeHeader_keeps.
  - intros k v. apply fold_mergeHeader_origin.
  - intros key value. apply fold_mergeHeader_covers.
  - apply fold_mergeHeader_id. intros key value. apply fold_mergeHeader_covers.
Qed.

(** X23: when two entries of the connection parameters have names with the
    same lower-case form and the request has no such header, the first of
    them in the order of the entries gives the header its value. *)
Theorem first_connection_header_wins (before after : list (string * string))
    (key value : string) (headers : gmap string string) :
  headers !! toLowerCase key = None ->
  (forall entry, entry ∈ before -> toLowerCase entry.1 <> toLowerCase key) ->
  Serve.mergeConnectionHeaders toLowerCase (Some (before ++ (key, value) :: after)) headers
    !! toLowerCase key = Some value.
Proof.
  unfold Serve.mergeConnectionHeaders. cbn [default].
  revert headers. induction before as [|entry before IH]; intros headers Hnone Hbefore.
  - cbn [app fold_left]. apply (fold_mergeHeader_keeps after).
    unfold Serve.mergeHeader. cbn [fst snd]. rewrite Hnone. apply lookup_insert_eq.
  - cbn [app fold_left]. apply IH.
    + unfold Serve.mergeHeader.
      assert (Hne := Hbefore entry (list_elem_of_here _ _)).
      destruct (headers !! toLowerCase entry.1); [exact Hnone |].
      now rewrite lookup_insert_ne.
    + intros e He. apply Hbefore. now apply list_elem_of_further.
Qed.
End HeaderFacts.

(** ** The OpenTelemetry plugin *)

Section TelemetryFacts.
Variable stringifyResult : ExecutionResult -> string.
Variable stringifyErrors : list GraphQLError -> string.
Variable stringifyVariables : Json -> string.
Context {Document : Type}.
Variable getDocumentString : Document -> string.
Variable options : Telemetry.TracingOptions.

Let onExecuteDone := Telemetry.onExecuteDone stringifyResult stringifyErrors options.
Let spanAttributes := Telemetry.spanAttributes stringifyVariables getDocumentString options.

(** X24: whatever the result and the options are, [onExecuteDone] ends the
    execution span exactly once; for a single result that is the last thing
    it does to the span, and for a stream it sets no attribute and records
    no exception. *)
Theorem execution_span_ends_exactly_once (result : Result) :
  length (filter (fun op => Telemetry.is_end op = true) (onExecuteDone result)) = 1%nat
  /\ (forall r, result = Single r ->
       exists ops, onExecuteDone result = ops ++ [Telemetry.SpanEnd]
                   /\ filter (fun op => Telemetry.is_end op = true) ops = [])
  /\ (forall stream, result = Stream stream ->
       filter (fun op => Telemetry.is_attribute op = true) (onExecuteDone result) = []
       /\ filter (fun op => Telemetry.is_exception op = true) (onExecuteDone result) = []).
Proof.
  unfold onExecuteDone, Telemetry.onExecuteDone.
  destruct result as [r|stream].
  - assert (H : filter (fun op => Telemetry.is_end op = true)
                  ((if truthy (result_data r) && Telemetry.tracing_result options
                    then [Telemetry.SetAttribute Telemetry.EXECUTION_RESULT (stringifyResult r)]
                    else [])
                   ++ match result_errors r with
                      | Some (e :: es) =>
                          [Telemetry.RecordException Telemetry.EXECUTION_ERROR
                             (stringifyErrors (e :: es))]
                      | _ => []
                      end) = []).
    { destruct (truthy (result_data r) && Telemetry.tracing_result options);
        destruct (result_errors r) as [[|e es]|]; cbn [app];
        rewrite ?filter_cons_False by (cbn; discriminate); apply filter_nil. }
    split; [| split].
    + rewrite app_assoc, filter_app, H.
      rewrite filter_cons_True by reflexivity. reflexivity.
    + intros r' _. eexists. split; [apply app_assoc | exact H].
    + intros stream; discriminate.
  - split; [| split].
    + rewrite filter_cons_True by reflexivity.
      rewrite filter_cons_False by (cbn; discriminate). reflexivity.
    + intros r; discriminate.
    + intros stream' _.
      split; rewrite !filter_cons_False by (cbn; discriminate); apply filter_nil.
Qed.

(** X25: the result is put on the span only when the [result] option is
    switched on and the result has data; an exception is recorded exactly
    when a single result carries a non-empty list of errors. *)
Theorem span_records_follow_the_result (result : Result) :
  (filter (fun op => Telemetry.is_attribute op = true) (onExecuteDone result) <> [] <->
     exists r, result = Single r /\ truthy (result_data r) = true
               /\ Telemetry.tracing_result options = true)
  /\ (filter (fun op => Telemetry.is_exception op = true) (onExecuteDone result) <> [] <->
       exists r e es, result = Single r /\ result_errors r = Some (e :: es)).
Proof.
  unfold onExecuteDone, Telemetry.onExecuteDone.
  destruct result as [r|stream].
  - set (ops := _ ++ _ ++ [Telemetry.SpanEnd]).
    assert (Ha : filter (fun op => Telemetry.is_attribute op = true) ops
                 = if truthy (result_data r) && Telemetry.tracing_result options
                   then [Telemetry.SetAttribute Telemetry.EXECUTION_RESULT
                           (stringifyResult r)]
                   else []).
    { subst ops.
      destruct (truthy (result_data r) && Telemetry.tracing_result options);
        destruct (result_errors r) as [[|e es]|]; cbn [app];
        repeat first [ rewrite filter_cons_True by reflexivity
                     | rewrite filter_cons_False by (cbn; discriminate) ];
        rewrite ?filter_nil; reflexivity. }
    assert (He : filter (fun op => Telemetry.is_exception op = true) ops
                 = match result_errors r with
                   | Some (e :: es) =>
                       [Telemetry.RecordException Telemetry.EXECUTION_ERROR
                          (stringifyErrors (e :: es))]
                   | _ => []
                   end).
    { subst ops.
      destruct (truthy (result_data r) && Telemetry.tracing_result options);
        destruct (result_errors r) as [[|e es]|]; cbn [app];
        repeat first [ rewrite filter_cons_True by reflexivity
                     | rewrite filter_cons_False by (cbn; discriminate) ];
        rewrite ?filter_nil; reflexivity. }
    rewrite Ha, He. clear Ha He ops. split; split.
    + intros H. exists r.
      destruct (truthy (result_data r)), (Telemetry.tracing_result options);
        cbn [andb] in H; try (now contradiction H). repeat split.
    + intros (r' & Hr & Hd & Ho). injection Hr as <-. rewrite Hd, Ho. discriminate.
    + intros H. destruct (result_errors r) as [[|e es]|] eqn:Herr;
        try (now contradiction H).
      exists r, e, es. split; [reflexivity | exact Herr].
    + intros (r' & e & es & Hr & Herr). injection Hr as <-. rewrite Herr. discriminate.
  - rewrite !filter_cons_False by (cbn; discriminate). rewrite !filter_nil.
    split; split; try (intros H; now contradiction H).
    + intros (r & Hr & _); discriminate.
    + intros (r & e & es & Hr & _); discriminate.
Qed.

(** X26: the operation name and the document are set on the span whatever
    the additional attributes say about those keys; the variables are set
    only when the [variables] option is on, and every other key has the
    value the additional attributes give it. *)
Theorem span_attributes_override (spanAdditionalAttributes : gmap string (option string))
    (args : Telemetry.ExecutionArgs) :
  let attributes := spanAttributes spanAdditionalAttributes args in
  attributes !! Telemetry.EXECUTION_OPERATION_NAME
    = Some (Telemetry.args_operationName args)
  /\ attributes !! Telemetry.EXECUTION_OPERATION_DOCUMENT
      = Some (Some (getDocumentString (Telemetry.args_document args)))
  /\ (Telemetry.tracing_variables options = false ->
       attributes !! Telemetry.EXECUTION_VARIABLES
         = spanAdditionalAttributes !! Telemetry.EXECUTION_VARIABLES)
  /\ (Telemetry.tracing_variables options = true ->
       attributes !! Telemetry.EXECUTION_VARIABLES
         = Some (Some (stringifyVariables
                         (default (VObj []) (Telemetry.args_variableValues args)))))
  /\ (forall key, key <> Telemetry.EXECUTION_OPERATION_NAME ->
                  key <> Telemetry.EXECUTION_OPERATION_DOCUMENT ->
                  key <> Telemetry.EXECUTION_VARIABLES ->
                  attributes !! key = spanAdditionalAttributes !! key).
Proof.
  unfold spanAttributes, Telemetry.spanAttributes. cbn zeta.
  assert (Hnd : Telemetry.EXECUTION_OPERATION_NAME <> Telemetry.EXECUTION_OPERATION_DOCUMENT)
    by (vm_compute; discriminate).
  assert (Hnv : Telemetry.EXECUTION_OPERATION_NAME <> Telemetry.EXECUTION_VARIABLES)
    by (vm_compute; discriminate).
  assert (Hdv : Telemetry.EXECUTION_OPERATION_DOCUMENT <> Telemetry.EXECUTION_VARIABLES)
    by (vm_compute; discriminate).
  destruct (Telemetry.tracing_variables options); repeat split;
    try discriminate; intros;
    repeat first [ rewrite lookup_insert_eq | rewrite lookup_insert_ne by congruence ];
    reflexivity.
Qed.
End TelemetryFacts.

(** ** Worked instances *)


Lemma successful_first_call_caches_witness :
  subgraphExecutorMap
    (resume Scenario.runtimeOptions Scenario.nothingInstalled 0
       (resume Scenario.runtimeOptions Scenario.nothingInstalled 0
          (onSubgraphExecute Scenario.runtimeOptions "a" 1%positive
             (init Scenario.twoRequests)))) !! "a"
    = Some (HookedExecutor Scenario.echo).
Proof.
  apply (successful_first_call_caches Scenario.runtimeOptions Scenario.nothingInstalled
           "a" 1%positive (init Scenario.twoRequests)
           {| stack_disposed := false; stack_resources := [4] |} Scenario.echo).
  - left. vm_compute. reflexivity.
  - vm_compute. reflexivity.
Defined.

Lemma hooked_entries_stay_hooked_witness :
  exists e', subgraphExecutorMap
               (run Scenario.runtimeOptions Scenario.nothingInstalled
                  [Call "a" 2%positive; Resume 1; Resume 1] Examples.warm) !! "a"
             = Some (HookedExecutor e').
Proof.
  apply (hooked_entries_stay_hooked Scenario.runtimeOptions Scenario.nothingInstalled
           [Call "a" 2%positive; Resume 1; Resume 1] Examples.warm "a" Scenario.echo).
  vm_compute. reflexivity.
Defined.


Lemma silent_hooks_are_transparent_witness :
  (executorWithHooks Examples.lookOptions Scenario.oneRequest 1%positive).2
    = ([EvPreHook 11 1%positive 0; EvPreHook 11 1%positive 0; EvExecute 0 1%positive],
       Ok (Single (Scenario.okResult false))).
Proof.
  apply (silent_hooks_are_transparent Examples.lookOptions Scenario.oneRequest 1%positive).
  intros hook Hin payload.
  apply elem_of_cons in Hin as [-> | Hin]; [reflexivity |].
  apply elem_of_cons in Hin as [-> | Hin]; [reflexivity |].
  now apply elem_of_nil in Hin.
Defined.


Lemma done_hooks_rewrite_the_result_witness :
  afterPreHooks (Some Scenario.rootLogger) [Examples.approveHook]
    (1%positive, Scenario.upstream)
  = ((1%positive, Scenario.upstream),
     [EvExecute 0 1%positive; EvDoneHook 13],
     Ok (Single (Scenario.okResult true))).
Proof.
  assert (Hok : forall (h : OnSubgraphExecuteDoneHook) (x : Result),
            h ∈ [Examples.approveHook] -> exists d, outcome (done_run h x) = Ok d).
  { intros h x Hin. apply elem_of_cons in Hin as [-> | Hin]; [now exists None |].
    now apply elem_of_nil in Hin. }
  apply (proj1 (done_hooks_rewrite_the_result Scenario.rootLogger Examples.approveHook []
                  (1%positive, Scenario.upstream) Hok)
           (Single (Scenario.okResult false))).
  reflexivity.
Defined.

Lemma request_logger_is_recorded_witness :
  exists execReqLogger,
    loggerForExecutionRequest
      (executorWithHooks (Scenario.swapOptions Scenario.withLogger) Examples.tracedRequest
         1%positive).1 !! 1%positive = Some execReqLogger
    /\ logger_prefix execReqLogger = ["a"; "req-1"].
Proof.
  apply (proj1 (request_logger_is_recorded (Scenario.swapOptions Scenario.withLogger)
                  Examples.tracedRequest 1%positive Scenario.rootLogger
                  eq_refl eq_refl)).
Defined.

Lemma discovered_factory_is_callable_witness :
  is_function (VFun Scenario.slowFactory) = true
  /\ is_Some (Some Scenario.rootLogger)
  /\ exists module,
       Examples.installed (Registry.moduleName "k") = Some module
       /\ Registry.pickGetSubgraphExecutor (VObj module) = Ok (VFun Scenario.slowFactory).
Proof.
  apply (discovered_factory_is_callable Registry.TransportsNone (Some Scenario.rootLogger)
           Examples.installed "k" VUndefined (VFun Scenario.slowFactory)).
  - reflexivity.
  - reflexivity.
  - vm_compute. reflexivity.
Defined.

Lemma default_member_takes_precedence_witness :
  Registry.getTransport (Registry.TransportsMap Examples.defaultModule) None
    Scenario.nothingInstalled "k"
  = Ok (VFun Scenario.slowFactory).
Proof.
  apply (default_member_takes_precedence Examples.defaultModule None
           Scenario.nothingInstalled "k"
           [("default", VObj [("getSubgraphExecutor", VFun Scenario.slowFactory)]);
            ("getSubgraphExecutor", VNum 42)]
           (VObj [("getSubgraphExecutor", VFun Scenario.slowFactory)])).
  - vm_compute. reflexivity.
  - reflexivity.
Defined.

Lemma plain_sources_are_left_alone_witness :
  exists prepared,
    Merger.prepareSources WordPrinter.printSchemaWithDirectives (fun sdl => sdl)
      Scenario.schemaOfText (fun schema _ => schema) (fun _ => None)
      Scenario.runSetter Scenario.rootLogger [Scenario.plainSource]
    = ([], Ok prepared)
    /\ map Merger.source_name prepared = ["plain"].
Proof.
  destruct (plain_sources_are_left_alone WordPrinter.printSchemaWithDirectives
              (fun sdl => sdl) Scenario.schemaOfText (fun schema _ => schema)
              (fun _ => None) (fun _ => Throw (Thrown "not reached"))
              Scenario.runSetter Scenario.rootLogger [Scenario.plainSource])
    as (prepared & Hp & Hn & _).
  - repeat constructor.
  - exists prepared. split; assumption.
Defined.



Lemma prepared_sources_keep_names_and_order_witness :
  map Merger.source_name
    match (Merger.prepareSources WordPrinter.printSchemaWithDirectives (fun sdl => sdl)
             Scenario.schemaOfText (fun schema _ => schema) (fun _ => None)
             Scenario.runSetter Scenario.rootLogger
             [Scenario.plainSource; Examples.inventory]).2 with
    | Ok prepared => prepared
    | Throw _ => []
    end
  = ["plain"; "inventory"].
Proof.
  apply (prepared_sources_keep_names_and_order WordPrinter.printSchemaWithDirectives
           (fun sdl => sdl) Scenario.schemaOfText (fun schema _ => schema) (fun _ => None)
           Scenario.runSetter Scenario.rootLogger
           [Scenario.plainSource; Examples.inventory] _
           (Merger.prepareSources WordPrinter.printSchemaWithDirectives (fun sdl => sdl)
              Scenario.schemaOfText (fun schema _ => schema) (fun _ => None)
              Scenario.runSetter Scenario.rootLogger
              [Scenario.plainSource; Examples.inventory]).1).
  vm_compute. reflexivity.
Defined.

Lemma first_connection_header_wins_witness :
  Serve.mergeConnectionHeaders Serve.toLowerCaseAscii
    (Some [("Accept", "text/html"); ("Authorization", "Bearer 1");
           ("authorization", "Bearer 2")])
    {[ "host" := "example.org" ]} !! "authorization"
  = Some "Bearer 1".
Proof.
  apply (first_connection_header_wins Serve.toLowerCaseAscii [("Accept", "text/html")]
           [("authorization", "Bearer 2")] "Authorization" "Bearer 1"
           {[ "host" := "example.org" ]}).
  - vm_compute. reflexivity.
  - intros entry Hin. apply elem_of_cons in Hin as [-> | Hin]; [vm_compute; discriminate |].
    now apply elem_of_nil in Hin.
Defined.

(** ** What the setters of the pre-hooks decide *)

Lemma iterateAsync_pre_logged (opts : WrapExecuteWithHooksOptions)
    (requestId : option string) (l : Logger) (hooks : list OnSubgraphExecuteHook)
    (dones : list OnSubgraphExecuteDoneHook) (v : PreVars) :
  (forall hook payload, hook ∈ hooks -> outcome (pre_run hook payload) = Ok None) ->
  iterateAsync hooks (callPreHook opts requestId (Some l)) dones v
    = (afterPre opts requestId (Some l) hooks v,
       preTrace opts requestId (Some l) hooks v, Ok dones).
Proof.
  revert v. induction hooks as [|hook rest IH]; intros v Hnone; [reflexivity |].
  rewrite (iterateAsync_pre_cons opts requestId l hook rest dones v None)
    by (apply Hnone; apply list_elem_of_here).
  cbv zeta. rewrite IH by (intros h p Hh; apply Hnone; now apply list_elem_of_further).
  reflexivity.
Qed.

(** X27: with a request logger and pre-hooks that return no done hook, the
    executor called in the end is the one the last [setExecutor] assigned, on
    the request the last [setExecutionRequest] assigned, and each pre-hook is
    called with the request and the executor as the hooks before it left
    them; the caller gets what that executor returns for that request. *)
Theorem setters_decide_the_call (opts : WrapExecuteWithHooksOptions) (st : Store)
    (r : ReqRef) (l : Logger) :
  execReqLoggerOf opts (requestIdOf st r) = Some l ->
  (forall hook payload, hook ∈ onSubgraphExecuteHooks opts ->
     outcome (pre_run hook payload) = Ok None) ->
  let v := afterPre opts (requestIdOf st r) (Some l) (onSubgraphExecuteHooks opts)
             (r, executor opts) in
  (executorWithHooks opts st r).2
    = (preTrace opts (requestIdOf st r) (Some l) (onSubgraphExecuteHooks opts)
         (r, executor opts)
       ++ [EvExecute (exec_id v.2) v.1],
       exec_run v.2 v.1).
Proof.
  intros Hl Hnone v. unfold executorWithHooks. cbn [snd].
  rewrite requestIdOf_attach, Hl.
  destruct (onSubgraphExecuteHooks opts) as [|h hs] eqn:Hh; [reflexivity |].
  cbn [length Nat.eqb]. unfold runProc, mbind at 1. unfold Proc_bind.
  rewrite iterateAsync_pre_logged by exact Hnone.
  rewrite afterPreHooks_invokes_current. reflexivity.
Qed.

Lemma setters_decide_the_call_witness :
  (executorWithHooks (Scenario.swapOptions Scenario.withLogger) Scenario.oneRequest
     1%positive).2
  = ([EvPreHook 1 1%positive 0; EvExecute 9 1%positive],
     Ok (Single (Scenario.okResult true))).
Proof.
  apply (setters_decide_the_call (Scenario.swapOptions Scenario.withLogger)
           Scenario.oneRequest 1%positive (child_logger Scenario.rootLogger "a")).
  - vm_compute. reflexivity.
  - intros hook payload Hin.
    apply elem_of_cons in Hin as [-> | Hin]; [reflexivity |].
    now apply elem_of_nil in Hin.
Defined.
